(** * LM Studio Harmony Bridge Proxy: the stream transformer and its parser

    A shallow embedding of [lm_studio_harmony_bridge.py]: the Harmony block
    parser, the two output formatters, the server-sent-event buffer with its
    extraction and flush steps, the streaming loop and the whole-body
    transformer, followed by the properties established about them.

    Conventions.
    - A Python [str] is a Rocq [string]; a character stands for the code
      point of the same number, so the development covers text over the
      code points 0..255.
    - A decoded JSON document is a value of [json]; a Python [dict] is an
      association list, because insertion order is observable in the
      rendered output.
    - The [json] module, [hash], [str] on decoded values and the clock are
      the interface [Runtime]; a reference instance is given for running
      the model on concrete streams.
    - Exceptions are values of [exn], carried by [res].
    - Writes to the client are taken to succeed; what the transformer
      writes is the list of its writes, in order. *)

From Stdlib Require Import List Bool Arith ZArith Lia Ascii String.
From Stdlib Require Import DecimalString DecimalNat.
Import ListNotations.
Open Scope string_scope.

(** ** Python strings *)

Module PyStr.

(** The line feed, written [\n] in the source. *)
Definition nl : string := String (ascii_of_nat 10) "".

(** [str.isspace] on one character; also the class [\s] of [re]. *)
Definition isspace (c : ascii) : bool :=
  let n := nat_of_ascii c in
  (((9 <=? n) && (n <=? 13)) || ((28 <=? n) && (n <=? 32))
   || (n =? 133) || (n =? 160))%nat.

(** [str.isalnum] on one character. *)
Definition isalnum (c : ascii) : bool :=
  let n := nat_of_ascii c in
  (((48 <=? n) && (n <=? 57)) || ((65 <=? n) && (n <=? 90))
   || ((97 <=? n) && (n <=? 122))
   || (n =? 170) || (n =? 178) || (n =? 179) || (n =? 181)
   || (n =? 185) || (n =? 186) || ((188 <=? n) && (n <=? 190))
   || ((192 <=? n) && (n <=? 214)) || ((216 <=? n) && (n <=? 246))
   || (248 <=? n))%nat.

(** The class [\w] of [re]. *)
Definition isword (c : ascii) : bool := isalnum c || (nat_of_ascii c =? 95)%nat.

Fixpoint rev (s : string) : string :=
  match s with
  | "" => ""
  | String c s' => rev s' ++ String c ""
  end.

Fixpoint lstrip (s : string) : string :=
  match s with
  | "" => ""
  | String c s' => if isspace c then lstrip s' else s
  end.

Definition rstrip (s : string) : string := rev (lstrip (rev s)).

(** [s.strip()] *)
Definition strip (s : string) : string := rstrip (lstrip s).

(** [s[n:]] *)
Fixpoint drop (n : nat) (s : string) : string :=
  match n, s with
  | 0, _ => s
  | S _, "" => ""
  | S n', String _ s' => drop n' s'
  end.

(** [s[:n]] *)
Fixpoint take (n : nat) (s : string) : string :=
  match n, s with
  | 0, _ => ""
  | S _, "" => ""
  | S n', String c s' => String c (take n' s')
  end.

(** [s[a:b]] for [0 <= a], [0 <= b]. *)
Definition slice (a b : nat) (s : string) : string := take (b - a) (drop a s).

(** [s.startswith(p)] *)
Definition startswith (p s : string) : bool := prefix p s.

(** [sub in s] *)
Fixpoint contains (sub s : string) : bool :=
  prefix sub s ||
  match s with
  | "" => false
  | String _ s' => contains sub s'
  end.

(** [s.replace(old, new)] for a non-empty [old]: occurrences are replaced
    from the left and do not overlap; [skip] counts the characters of the
    occurrence just replaced that are still to be passed over. *)
Fixpoint replace_from (old new s : string) (skip : nat) : string :=
  match s with
  | "" => ""
  | String c s' =>
      match skip with
      | S k => replace_from old new s' k
      | 0 =>
          if prefix old s
          then new ++ replace_from old new s' (length old - 1)
          else String c (replace_from old new s' 0)
      end
  end.

Definition replace (old new s : string) : string := replace_from old new s 0.

(** [sep.join(parts)] *)
Definition join (sep : string) (parts : list string) : string :=
  String.concat sep parts.

(** Start offsets of [re.finditer] for a literal, non-empty pattern: the
    occurrences from the left that do not overlap. [pos] is the offset of
    [s] in the scanned text. *)
Fixpoint find_all_from (pat s : string) (pos skip : nat) : list nat :=
  match s with
  | "" => []
  | String _ s' =>
      match skip with
      | S k => find_all_from pat s' (S pos) k
      | 0 =>
          if prefix pat s
          then pos :: find_all_from pat s' (S pos) (length pat - 1)
          else find_all_from pat s' (S pos) 0
      end
  end.

Definition find_all (pat s : string) : list nat := find_all_from pat s 0 0.

(** [str(n)] for a natural number and for an integer. *)
Definition str_of_nat (n : nat) : string :=
  NilZero.string_of_uint (Nat.to_uint n).

Definition str_of_Z (z : Z) : string :=
  NilZero.string_of_int (Z.to_int z).

End PyStr.
Import PyStr.

(** ** Decoded JSON values and Python's dynamic operations on them *)

Set Warnings "-register-all".

(** What [json.loads] returns. A [float] is kept as its [repr], which
    identifies it; the program only tests floats for truth and prints them. *)
Inductive json : Type :=
| JNull
| JBool (b : bool)
| JInt (z : Z)
| JFloat (repr : string)
| JStr (s : string)
| JList (items : list json)
| JDict (items : list (string * json)).

(** A Python [dict] with string keys, in insertion order. *)
Definition dict : Type := list (string * json).

Inductive exn : Type :=
| AttributeError
| TypeError
| KeyError
| IndexError
| ClientError.

(** The result of a computation that may raise. *)
Inductive res (A : Type) : Type :=
| Ok (a : A)
| Raise (e : exn).
Arguments Ok {A} a.
Arguments Raise {A} e.

Definition bind {A B : Type} (m : res A) (f : A -> res B) : res B :=
  match m with
  | Ok a => f a
  | Raise e => Raise e
  end.

Notation "x <- m ;; k" := (bind m (fun x => k))
  (at level 61, m at next level, right associativity).

Module Py.

(** [d.get(key)] on a dict; [None] when the key is absent. *)
Fixpoint dict_get (d : dict) (key : string) : option json :=
  match d with
  | [] => None
  | (k, v) :: d' => if String.eqb k key then Some v else dict_get d' key
  end.

(** [d.get(key, default)] *)
Definition dict_get_default (d : dict) (key : string) (default : json) : json :=
  match dict_get d key with
  | Some v => v
  | None => default
  end.

(** [d[key] = v]: an existing key keeps its place, a new one goes last. *)
Fixpoint dict_set (d : dict) (key : string) (v : json) : dict :=
  match d with
  | [] => [(key, v)]
  | (k, w) :: d' =>
      if String.eqb k key then (k, v) :: d' else (k, w) :: dict_set d' key v
  end.

(** [d.pop(key, None)], for its effect on [d]. *)
Fixpoint dict_pop (d : dict) (key : string) : dict :=
  match d with
  | [] => []
  | (k, w) :: d' =>
      if String.eqb k key then d' else (k, w) :: dict_pop d' key
  end.

(** [bool(v)] *)
Definition truthy (v : json) : bool :=
  match v with
  | JNull => false
  | JBool b => b
  | JInt z => negb (z =? 0)%Z
  | JFloat r => negb (String.eqb r "0.0" || String.eqb r "-0.0")
  | JStr s => negb (String.eqb s "")
  | JList l => match l with [] => false | _ => true end
  | JDict d => match d with [] => false | _ => true end
  end.

(** [v or d] *)
Definition or_else (v d : json) : json := if truthy v then v else d.

(** [v.get(key)]: only a dict has the method. *)
Definition get (v : json) (key : string) : res json :=
  match v with
  | JDict d => Ok (dict_get_default d key JNull)
  | _ => Raise AttributeError
  end.

(** [v.get(key, default)] *)
Definition get_default (v : json) (key : string) (default : json) : res json :=
  match v with
  | JDict d => Ok (dict_get_default d key default)
  | _ => Raise AttributeError
  end.

(** [v[0]] *)
Definition item0 (v : json) : res json :=
  match v with
  | JList (x :: _) => Ok x
  | JList [] => Raise IndexError
  | JStr (String c _) => Ok (JStr (String c ""))
  | JStr "" => Raise IndexError
  | JDict _ => Raise KeyError
  | _ => Raise TypeError
  end.

(** [isinstance(v, dict)] *)
Definition is_dict (v : json) : bool :=
  match v with
  | JDict _ => true
  | _ => false
  end.

(** [v == s] for a string [s] *)
Definition eq_str (v : json) (s : string) : bool :=
  match v with
  | JStr t => String.eqb t s
  | _ => false
  end.

(** [sub in v] for a string [sub]: substring of a string, element of a
    list, key of a dict; other values are not containers. *)
Definition str_in (sub : string) (v : json) : res bool :=
  match v with
  | JStr s => Ok (contains sub s)
  | JList l => Ok (existsb (fun x => eq_str x sub) l)
  | JDict d => Ok (existsb (fun kv => String.eqb (fst kv) sub) d)
  | _ => Raise TypeError
  end.

End Py.

(** The library functions the program calls. *)
Class Runtime : Type := {
  (** [json.loads(s)]; [None] stands for [JSONDecodeError] *)
  json_loads : string -> option json;
  (** [json.dumps(v, ensure_ascii=False)] *)
  json_dumps : json -> string;
  (** [str(v)] on a decoded value *)
  py_str : json -> string;
  (** [hash(s)] on a string *)
  py_hash : string -> Z;
  (** [int(datetime.now().timestamp())] *)
  now : Z;
  (** [str(e)] on an exception *)
  exn_str : exn -> string
}.

(** ** The fragment of [re] that the program's patterns use

    A backtracking matcher in continuation-passing style: alternatives are
    tried in the order of the [re] engine, and the first success wins.
    Repetition applies to character classes only, which is all the patterns
    of the program need. *)

Module Re.

Inductive regex : Type :=
| Lit (s : string)                                  (* literal text *)
| Many (greedy : bool) (min : nat) (cls : ascii -> bool)
                                                    (* [c+], [c*], [c*?] *)
| Seq (r1 r2 : regex)
| Alt (r1 r2 : regex)                               (* [r1|r2] *)
| Opt (r : regex)                                   (* [(?:r)?] *)
| Group (name : string) (r : regex)                 (* [(?P<name>r)] *)
| Ahead (r : regex)                                 (* [(?=r)] *)
| EndZ.                                             (* [\Z] *)

(** Named groups that took part in the match, latest first. *)
Definition captures : Type := list (string * string).

Definition cont : Type := string -> captures -> option (string * captures).

Definition orelse {A : Type} (x y : option A) : option A :=
  match x with
  | Some _ => x
  | None => y
  end.

Fixpoint many_greedy (cls : ascii -> bool) (min : nat) (s : string)
    (c : captures) (k : cont) : option (string * captures) :=
  let stop := if (min =? 0)%nat then k s c else None in
  match s with
  | String a s' =>
      if cls a then orelse (many_greedy cls (pred min) s' c k) stop else stop
  | "" => stop
  end.

Fixpoint many_lazy (cls : ascii -> bool) (min : nat) (s : string)
    (c : captures) (k : cont) : option (string * captures) :=
  let stop := if (min =? 0)%nat then k s c else None in
  match stop with
  | Some r => Some r
  | None =>
      match s with
      | String a s' => if cls a then many_lazy cls (pred min) s' c k else None
      | "" => None
      end
  end.

(** [run r s c k]: match [r] at the head of [s], then hand the rest of the
    text to [k]; [None] when every alternative fails. *)
Fixpoint run (r : regex) (s : string) (c : captures) (k : cont)
    : option (string * captures) :=
  match r with
  | Lit p => if prefix p s then k (drop (length p) s) c else None
  | Many true min cls => many_greedy cls min s c k
  | Many false min cls => many_lazy cls min s c k
  | Seq r1 r2 => run r1 s c (fun s' c' => run r2 s' c' k)
  | Alt r1 r2 => orelse (run r1 s c k) (run r2 s c k)
  | Opt r1 => orelse (run r1 s c k) (k s c)
  | Group name r1 =>
      run r1 s c
        (fun s' c' => k s' ((name, take (length s - length s') s) :: c'))
  | Ahead r1 =>
      match run r1 s c (fun s' c' => Some (s', c')) with
      | Some (_, c') => k s c'
      | None => None
      end
  | EndZ => match s with "" => k s c | _ => None end
  end.

(** [pattern.match] at the head of [s]: the text after the match and the
    groups. *)
Definition match_at (r : regex) (s : string) : option (string * captures) :=
  run r s [] (fun s' c' => Some (s', c')).

(** [m.group(name)] *)
Fixpoint group (c : captures) (name : string) : option string :=
  match c with
  | [] => None
  | (n, v) :: c' => if String.eqb n name then Some v else group c' name
  end.

(** [pattern.finditer(s)] for a pattern that matches no empty text: matches
    from the left that do not overlap. After a match the scan resumes where
    it ended; [skip] counts the characters of the last match still to be
    passed over. *)
Fixpoint finditer_from (r : regex) (s : string) (skip : nat) : list captures :=
  match s with
  | "" =>
      match skip, match_at r s with
      | 0, Some (_, c) => [c]
      | _, _ => []
      end
  | String _ s' =>
      match skip with
      | S n => finditer_from r s' n
      | 0 =>
          match match_at r s with
          | Some (rest, c) =>
              c :: finditer_from r s' (length s - length rest - 1)
          | None => finditer_from r s' 0
          end
      end
  end.

Definition finditer (r : regex) (s : string) : list captures :=
  finditer_from r s 0.

End Re.

(** ** Harmony parser *)

Record tool_call : Type := {
  name : string;
  arguments : json
}.

(** The dict that [parse_block] returns. *)
Record parsed : Type := {
  final_message : string;
  analysis : list string;
  tool_calls : list tool_call;
  commentary : list string
}.

Module HarmonyParser.
Import Re.

Definition not_lt_or_space (c : ascii) : bool :=
  negb (Ascii.eqb c "<"%char || isspace c).

Definition any_char (c : ascii) : bool := true.

(** The pattern, compiled with [re.DOTALL]:
    [<\|channel\|>(?P<channel>\w+)]
    [(?:\s+to=(?P<recipient>[^<\s]+))?]
    [(?:\s*<\|constrain\|>(?P<constrain>\w+))?]
    [<\|message\|>(?P<content>.*?)(?=(?:<\|channel\|>|\Z))] *)
Definition CHANNEL_PATTERN : regex :=
  Seq (Lit "<|channel|>")
 (Seq (Group "channel" (Many true 1 isword))
 (Seq (Opt (Seq (Many true 1 isspace)
           (Seq (Lit "to=")
                (Group "recipient" (Many true 1 not_lt_or_space)))))
 (Seq (Opt (Seq (Many true 0 isspace)
           (Seq (Lit "<|constrain|>")
                (Group "constrain" (Many true 1 isword)))))
 (Seq (Lit "<|message|>")
 (Seq (Group "content" (Many false 0 any_char))
      (Ahead (Alt (Lit "<|channel|>") EndZ))))))).

Definition has_harmony (text : string) : bool :=
  contains "<|channel|>" text || contains "<|message|>" text
  || contains "<|start|>" text.

(** [has_harmony] on a value that need not be a string: [in] is evaluated
    on whatever it is given, from the left, until one test holds. *)
Definition has_harmony_dyn (text : json) : res bool :=
  b1 <- Py.str_in "<|channel|>" text ;;
  if b1 then Ok true else
  b2 <- Py.str_in "<|message|>" text ;;
  if b2 then Ok true else
  Py.str_in "<|start|>" text.

(** [(m.group(name) or '').strip()] *)
Definition field (m : captures) (name : string) : string :=
  strip (match group m name with Some v => v | None => "" end).

Definition empty_result : parsed :=
  {| final_message := ""; analysis := []; tool_calls := []; commentary := [] |}.

Section WithRuntime.
Context {rt : Runtime}.

(** The arguments of a tool invocation. *)
Definition tool_arguments (constrain content : string) : json :=
  if String.eqb constrain "json" then
    if String.eqb content "" then JDict []
    else match json_loads content with
         | Some v => v
         | None => JDict [("raw", JStr content)]
         end
  else JDict [("raw", JStr content)].

(** The body of the loop of [parse_block], for one match. *)
Definition parse_segment (result : parsed) (m : captures) : parsed :=
  let channel := field m "channel" in
  let recipient := field m "recipient" in
  let constrain := field m "constrain" in
  let content := field m "content" in
  if String.eqb channel "final" then
    {| final_message := final_message result ++ content;
       analysis := analysis result;
       tool_calls := tool_calls result;
       commentary := commentary result |}
  else if String.eqb channel "analysis" then
    {| final_message := final_message result;
       analysis := (analysis result ++ [content])%list;
       tool_calls := tool_calls result;
       commentary := commentary result |}
  else if String.eqb channel "commentary" then
    if negb (String.eqb recipient "") then
      let name := replace "functions." "" recipient in
      let args := tool_arguments constrain content in
      {| final_message := final_message result;
         analysis := analysis result;
         tool_calls :=
           (tool_calls result ++ [{| name := name; arguments := args |}])%list;
         commentary := commentary result |}
    else
      {| final_message := final_message result;
         analysis := analysis result;
         tool_calls := tool_calls result;
         commentary := (commentary result ++ [content])%list |}
  else result.

Definition parse_block (block : string) : parsed :=
  fold_left parse_segment (finditer CHANNEL_PATTERN block) empty_result.

End WithRuntime.
End HarmonyParser.

(** ** XML formatter (Cline format) and call-list formatter *)

Module XMLFormatter.
Section WithRuntime.
Context {rt : Runtime}.

Definition _esc (s : string) : string :=
  replace "'" "&apos;"
    (replace (String (ascii_of_nat 34) "") "&quot;"
       (replace ">" "&gt;" (replace "<" "&lt;" (replace "&" "&amp;" s)))).

(** The text of one argument value: [None] is empty, a string is itself,
    anything else is its JSON text. *)
Definition value_text (v : json) : string :=
  match v with
  | JNull => ""
  | JStr t => t
  | _ => json_dumps v
  end.

(** What one tool call appends to [parts]. *)
Definition xml_parts (tc : tool_call) : list string :=
  let opening := "<" ++ name tc ++ ">" in
  let closing := "</" ++ name tc ++ ">" in
  let body :=
    match arguments tc with
    | JDict d =>
        map (fun kv => "<" ++ fst kv ++ ">" ++ _esc (value_text (snd kv))
                       ++ "</" ++ fst kv ++ ">") d
    | args => [_esc (py_str args)]
    end in
  opening :: List.app body [closing].

Definition tool_calls_to_xml (tool_calls : list tool_call) : string :=
  join nl (flat_map xml_parts tool_calls).

(** [f'call_{i}_{abs(hash(tc["name"])) % 10000}'] *)
Definition call_id (i : nat) (tc : tool_call) : string :=
  "call_" ++ str_of_nat i ++ "_"
  ++ str_of_Z (Z.abs (py_hash (name tc)) mod 10000).

Definition call_entry (i : nat) (tc : tool_call) : json :=
  JDict
    [("id", JStr (call_id i tc));
     ("type", JStr "function");
     ("function",
      JDict
        [("name", JStr (name tc));
         ("arguments",
          JStr (match arguments tc with
                | JDict _ => json_dumps (arguments tc)
                | args => py_str args
                end))])].

(** The loop over [enumerate(tool_calls)], counting from [i]. *)
Fixpoint call_entries (i : nat) (tool_calls : list tool_call) : list json :=
  match tool_calls with
  | [] => []
  | tc :: rest => call_entry i tc :: call_entries (S i) rest
  end.

Definition tool_calls_to_openai (tool_calls : list tool_call) : list json :=
  call_entries 0 tool_calls.

End WithRuntime.
End XMLFormatter.

(** ** SSE buffer *)

Record HarmonyStreamState : Type := {
  harmony_mode : bool;
  buf : string
}.

Definition new_state : HarmonyStreamState :=
  {| harmony_mode := false; buf := "" |}.

(** ** Bridge *)

Record LMStudioBridge : Type := {
  lm_studio_url : string;
  port : Z;
  xml_mode : bool;
  req_id : nat
}.

(** What the stream transformer writes to the client: an upstream line
    relayed as it came, a translated chunk, or the end marker. *)
Inductive client_write : Type :=
| Relay (line : string)
| Emit (out_chunk : json)
| DoneSentinel.

(** How one iteration of the streaming loop ends. *)
Inductive step : Type :=
| Next (st : HarmonyStreamState) (writes : list client_write)
| Stop (writes : list client_write)
| Fail (e : exn).

(** How the streaming loop ends: after the upstream's end marker, at the
    end of the upstream body without one, or by an exception. *)
Inductive ending : Type :=
| Completed
| UpstreamEnded
| Errored (e : exn).

(** The upstream body of a streaming response, line by line; [broken]
    when reading fails after the last line received. *)
Record upstream : Type := {
  lines : list string;
  broken : bool
}.

(** The upstream response of a whole-body request: its text, and what
    [await lm_resp.json()] returns for it, [None] when that raises. *)
Record upstream_body : Type := {
  text : string;
  decoded : option json
}.

Inductive response : Type :=
| TextResponse (body : string)
| JsonResponse (status : nat) (data : json).

Module Bridge.
Import HarmonyParser XMLFormatter.
Section WithRuntime.
Context {rt : Runtime}.
Variable self : LMStudioBridge.

(** The bytes of a write, before [encode('utf-8')]. *)
Definition wire (w : client_write) : string :=
  match w with
  | Relay line => line ++ nl ++ nl
  | Emit out_chunk => "data: " ++ json_dumps out_chunk ++ nl ++ nl
  | DoneSentinel => "data: [DONE]" ++ nl ++ nl
  end.

Definition _make_base_chunk_like (base_chunk : dict) : dict :=
  [("id", Py.dict_get_default base_chunk "id" (JStr "chunk"));
   ("object",
    Py.dict_get_default base_chunk "object" (JStr "chat.completion.chunk"));
   ("created", Py.dict_get_default base_chunk "created" (JInt now));
   ("model", Py.dict_get_default base_chunk "model" (JStr "gpt-oss"));
   ("choices",
    JList [JDict [("index", JInt 0); ("delta", JDict []);
                  ("finish_reason", JNull)]])].

(** [out_chunk['choices'][0]['delta'] = delta] *)
Definition set_delta (out_chunk : dict) (delta : dict) : dict :=
  match Py.dict_get out_chunk "choices" with
  | Some (JList (JDict choice :: rest)) =>
      Py.dict_set out_chunk "choices"
        (JList (JDict (Py.dict_set choice "delta" (JDict delta)) :: rest))
  | _ => out_chunk
  end.

(** The chunks one parsed block gives rise to: the tool calls if there are
    any, else the final text if there is any, else nothing. The source has
    this text twice, in [_extract_ready_blocks] and in
    [_flush_harmony_buffer]. *)
Definition emit_parsed (out_chunk : dict) (p : parsed) : list json :=
  match tool_calls p with
  | _ :: _ =>
      if xml_mode self then
        let xml := tool_calls_to_xml (tool_calls p) in
        if negb (String.eqb (strip xml) "")
        then [JDict (set_delta out_chunk [("content", JStr xml)])]
        else []
      else
        match tool_calls_to_openai (tool_calls p) with
        | [] => []
        | calls => [JDict (set_delta out_chunk [("tool_calls", JList calls)])]
        end
  | [] =>
      if negb (String.eqb (final_message p) "")
      then [JDict (set_delta out_chunk [("content", JStr (final_message p))])]
      else []
  end.

(** The body of the loop of [_extract_ready_blocks] for index [i]. *)
Definition ready_block (buf : string) (base_chunk : dict)
    (markers : list nat) (i : nat) : list json :=
  let start := nth i markers 0 in
  let end_ := nth (i + 1) markers 0 in
  let block := slice start end_ buf in
  emit_parsed (_make_base_chunk_like base_chunk) (parse_block block).

Definition _extract_ready_blocks (buf : string) (base_chunk : dict)
    : list json * string :=
  let markers := find_all "<|channel|>" buf in
  if (List.length markers <=? 1)%nat then ([], buf)
  else
    (flat_map (ready_block buf base_chunk markers)
       (seq 0 (List.length markers - 1)),
     drop (last markers 0) buf).

Definition _flush_harmony_buffer (buf : string) : list json :=
  if String.eqb (strip buf) "" then []
  else emit_parsed (_make_base_chunk_like []) (parse_block buf).

(** [delta.get('content', '')] for the first choice of a chunk. *)
Definition delta_content (chunk : dict) : res json :=
  let choices := Py.or_else (Py.dict_get_default chunk "choices" JNull)
                            (JList []) in
  d <- (if Py.truthy choices then
          first <- Py.item0 choices ;;
          if Py.is_dict first then Py.get first "delta" else Ok (JDict [])
        else Ok (JDict [])) ;;
  let delta := Py.or_else d (JDict []) in
  Py.get_default delta "content" (JStr "").

(** [st.buf += content] when [content] is true. *)
Definition append_content (buf : string) (content : json) : res string :=
  if Py.truthy content then
    match content with
    | JStr c => Ok (buf ++ c)
    | _ => Raise TypeError
    end
  else Ok buf.

(** The loop body of [_stream_transform] once the line is decoded. *)
Definition on_chunk (st : HarmonyStreamState) (line : string) (chunk : dict)
    : step :=
  match delta_content chunk with
  | Raise e => Fail e
  | Ok content =>
      match (if Py.truthy content then has_harmony_dyn content
             else Ok false) with
      | Raise e => Fail e
      | Ok seen =>
          if seen || harmony_mode st then
            match append_content (buf st) content with
            | Raise e => Fail e
            | Ok b =>
                let (out_chunks, b') := _extract_ready_blocks b chunk in
                Next {| harmony_mode := true; buf := b' |}
                     (map Emit out_chunks)
            end
          else Next st [Relay line]
      end
  end.

(** One iteration of the loop of [_stream_transform]; [raw_line] is the
    line after [decode]. *)
Definition process_line (st : HarmonyStreamState) (raw_line : string) : step :=
  let line := strip raw_line in
  if String.eqb line "" then Next st []
  else if String.eqb line "data: [DONE]" then
    Stop (List.app (map Emit (_flush_harmony_buffer (buf st))) [DoneSentinel])
  else if negb (startswith "data: " line) then Next st []
  else
    match json_loads (drop 6 line) with
    | None => Next st []
    | Some (JDict chunk) => on_chunk st line chunk
    | Some _ => Fail AttributeError
    end.

(** The loop of [_stream_transform] from state [st]: everything written to
    the client, and how the loop ended. *)
Fixpoint stream_loop (st : HarmonyStreamState) (ls : list string)
    (fails : bool) : list client_write * ending :=
  match ls with
  | [] => ([], if fails then Errored ClientError else UpstreamEnded)
  | raw_line :: rest =>
      match process_line st raw_line with
      | Next st' ws =>
          let (ws', e) := stream_loop st' rest fails in ((ws ++ ws')%list, e)
      | Stop ws => (ws, Completed)
      | Fail e => ([], Errored e)
      end
  end.

Definition _stream_transform (lm_resp : upstream)
    : list client_write * ending :=
  stream_loop new_state (lines lm_resp) (broken lm_resp).

(** The body of the second [try] of [_nonstream_transform]. *)
Definition transform_data (data : json) : res json :=
  c <- Py.get data "choices" ;;
  let choices := Py.or_else c (JList []) in
  choice <- (if Py.truthy choices then Py.item0 choices
             else Ok (JDict [("index", JInt 0); ("message", JDict [])])) ;;
  m <- Py.get choice "message" ;;
  let message := Py.or_else m (JDict []) in
  r <- Py.get message "content" ;;
  let raw := Py.or_else r (JStr "") in
  seen <- HarmonyParser.has_harmony_dyn raw ;;
  if seen then
    match raw, message, choice, data with
    | JStr raw_text, JDict message, JDict choice, JDict data =>
        let parsed := parse_block raw_text in
        let (message, choice) :=
          match tool_calls parsed with
          | _ :: _ =>
              if xml_mode self then
                let xml := tool_calls_to_xml (tool_calls parsed) in
                (Py.dict_pop (Py.dict_set message "content" (JStr xml))
                             "tool_calls",
                 Py.dict_set choice "finish_reason" (JStr "stop"))
              else
                (Py.dict_set (Py.dict_set message "content" JNull)
                   "tool_calls"
                   (JList (tool_calls_to_openai (tool_calls parsed))),
                 Py.dict_set choice "finish_reason" (JStr "tool_calls"))
          | [] =>
              (Py.dict_set message "content" (JStr (final_message parsed)),
               Py.dict_set choice "finish_reason" (JStr "stop"))
          end in
        let choice := Py.dict_set choice "message" (JDict message) in
        match choices with
        | JList (_ :: rest) =>
            Ok (JDict (Py.dict_set data "choices"
                         (JList (JDict choice :: rest))))
        | _ => Ok (JDict (Py.dict_set data "choices" (JList [JDict choice])))
        end
    | _, _, _, _ => Raise TypeError
    end
  else Ok data.

Definition error_body (e : exn) : json :=
  JDict [("error", JDict [("message", JStr (exn_str e));
                          ("type", JStr "proxy_error")])].

Definition _nonstream_transform (lm_resp : upstream_body) : response :=
  match decoded lm_resp with
  | None => TextResponse (text lm_resp)
  | Some data =>
      match transform_data data with
      | Ok data' => JsonResponse 200 data'
      | Raise e => JsonResponse 500 (error_body e)
      end
  end.

End WithRuntime.
End Bridge.

(** ** Construction of the bridge *)

Module Setup.

(** [s.lstrip(chars)]: the leading characters that occur in [chars] are
    removed. *)
Fixpoint lstrip_chars (chars s : string) : string :=
  match s with
  | "" => ""
  | String c s' =>
      if contains (String c "") chars then lstrip_chars chars s' else s
  end.

(** [s.rstrip(chars)] *)
Definition rstrip_chars (chars s : string) : string :=
  rev (lstrip_chars chars (rev s)).

(** [LMStudioBridge.__init__] *)
Definition __init__ (lm_studio_url : string) (port : Z) (xml_mode : bool)
    : LMStudioBridge :=
  {| lm_studio_url := rstrip_chars "/" lm_studio_url;
     port := port;
     xml_mode := xml_mode;
     req_id := 0 |}.

(** The address that [handle_chat_completions] posts to. *)
Definition chat_completions_url (self : LMStudioBridge) : string :=
  lm_studio_url self ++ "/v1/chat/completions".

(** The address that [handle_models] gets. *)
Definition models_url (self : LMStudioBridge) : string :=
  lm_studio_url self ++ "/v1/models".

End Setup.

(** ** A reference runtime

    An executable instance of [Runtime], for running the model on concrete
    streams. It follows the [json] module on documents without floats and
    without [\u] escapes above code point 255, and [str] on scalars; it rejects
    what it does not cover. [hash] is randomised per process in Python, so
    any function is a possible one; the clock is a constant. *)

Module RefRuntime.

Definition dquote : ascii := ascii_of_nat 34.

Definition is_digit (c : ascii) : bool :=
  let n := nat_of_ascii c in ((48 <=? n) && (n <=? 57))%nat.

Definition is_json_ws (c : ascii) : bool :=
  let n := nat_of_ascii c in
  ((n =? 32) || (n =? 9) || (n =? 10) || (n =? 13))%nat.

Fixpoint skip_ws (s : string) : string :=
  match s with
  | String c s' => if is_json_ws c then skip_ws s' else s
  | "" => ""
  end.

Definition hex_value (c : ascii) : option nat :=
  let n := nat_of_ascii c in
  if ((48 <=? n) && (n <=? 57))%nat then Some (n - 48)
  else if ((97 <=? n) && (n <=? 102))%nat then Some (n - 87)
  else if ((65 <=? n) && (n <=? 70))%nat then Some (n - 55)
  else None.

(** The four hex digits of a [\u] escape; code points above 255 are not
    covered. *)
Definition unicode_escape (s : string) : option (ascii * string) :=
  match s with
  | String a (String b (String c (String d rest))) =>
      match hex_value a, hex_value b, hex_value c, hex_value d with
      | Some 0, Some 0, Some h, Some l => Some (ascii_of_nat (16 * h + l), rest)
      | _, _, _, _ => None
      end
  | _ => None
  end.

(** The text of a JSON string after its opening quote. *)
Fixpoint scan_string (fuel : nat) (s : string) : option (string * string) :=
  match fuel with
  | 0 => None
  | S fuel' =>
      match s with
      | "" => None
      | String c s' =>
          if Ascii.eqb c dquote then Some ("", s')
          else if Ascii.eqb c "\"%char then
            match s' with
            | "" => None
            | String e s'' =>
                let simple (x : ascii) :=
                  match scan_string fuel' s'' with
                  | Some (t, rest) => Some (String x t, rest)
                  | None => None
                  end in
                if Ascii.eqb e dquote then simple dquote
                else if Ascii.eqb e "\"%char then simple "\"%char
                else if Ascii.eqb e "/"%char then simple "/"%char
                else if Ascii.eqb e "b"%char then simple (ascii_of_nat 8)
                else if Ascii.eqb e "f"%char then simple (ascii_of_nat 12)
                else if Ascii.eqb e "n"%char then simple (ascii_of_nat 10)
                else if Ascii.eqb e "r"%char then simple (ascii_of_nat 13)
                else if Ascii.eqb e "t"%char then simple (ascii_of_nat 9)
                else if Ascii.eqb e "u"%char then
                  match unicode_escape s'' with
                  | Some (x, rest0) =>
                      match scan_string fuel' rest0 with
                      | Some (t, rest) => Some (String x t, rest)
                      | None => None
                      end
                  | None => None
                  end
                else None
            end
          else if (nat_of_ascii c <? 32)%nat then None
          else
            match scan_string fuel' s' with
            | Some (t, rest) => Some (String c t, rest)
            | None => None
            end
      end
  end.

Fixpoint scan_digits (s : string) (acc : Z) : Z * string :=
  match s with
  | String c s' =>
      if is_digit c
      then scan_digits s' (10 * acc + Z.of_nat (nat_of_ascii c - 48))%Z
      else (acc, s)
  | "" => (acc, s)
  end.

(** An integer literal; a fraction or an exponent makes a float, which is
    not covered. *)
Definition scan_int (s : string) : option (Z * string) :=
  let (neg, body) :=
    match s with
    | String c s' => if Ascii.eqb c "-"%char then (true, s') else (false, s)
    | "" => (false, s)
    end in
  match body with
  | String d rest =>
      if is_digit d then
        let (n, rest') :=
          if Ascii.eqb d "0"%char then (0%Z, rest) else scan_digits body 0%Z in
        match rest' with
        | String x _ =>
            if Ascii.eqb x "."%char || Ascii.eqb x "e"%char
               || Ascii.eqb x "E"%char
            then None
            else Some (if neg then (- n)%Z else n, rest')
        | "" => Some (if neg then (- n)%Z else n, rest')
        end
      else None
  | "" => None
  end.

Fixpoint scan_value (fuel : nat) (s : string) : option (json * string) :=
  match fuel with
  | 0 => None
  | S fuel' =>
      match s with
      | "" => None
      | String c s' =>
          if Ascii.eqb c dquote then
            match scan_string (S (length s')) s' with
            | Some (t, rest) => Some (JStr t, rest)
            | None => None
            end
          else if Ascii.eqb c "["%char then
            match skip_ws s' with
            | String "]"%char rest => Some (JList [], rest)
            | s1 =>
                match scan_items fuel' s1 with
                | Some (l, rest) => Some (JList l, rest)
                | None => None
                end
            end
          else if Ascii.eqb c "{"%char then
            match skip_ws s' with
            | String "}"%char rest => Some (JDict [], rest)
            | s1 =>
                match scan_members fuel' s1 [] with
                | Some (d, rest) => Some (JDict d, rest)
                | None => None
                end
            end
          else if prefix "null" s then Some (JNull, drop 4 s)
          else if prefix "true" s then Some (JBool true, drop 4 s)
          else if prefix "false" s then Some (JBool false, drop 5 s)
          else
            match scan_int s with
            | Some (z, rest) => Some (JInt z, rest)
            | None => None
            end
      end
  end

(** The items of an array after [[], up to and including the closing
    bracket. *)
with scan_items (fuel : nat) (s : string) : option (list json * string) :=
  match fuel with
  | 0 => None
  | S fuel' =>
      match scan_value fuel' s with
      | Some (v, rest) =>
          match skip_ws rest with
          | String "]"%char rest' => Some ([v], rest')
          | String ","%char rest' =>
              match scan_items fuel' (skip_ws rest') with
              | Some (l, rest'') => Some (v :: l, rest'')
              | None => None
              end
          | _ => None
          end
      | None => None
      end
  end

(** The members of an object after [{], up to and including the closing
    brace; a repeated key keeps its place and takes the later value. *)
with scan_members (fuel : nat) (s : string) (acc : dict)
    : option (dict * string) :=
  match fuel with
  | 0 => None
  | S fuel' =>
      match s with
      | String q s' =>
          if negb (Ascii.eqb q dquote) then None else
          match scan_string (S (length s')) s' with
          | Some (key, rest) =>
              match skip_ws rest with
              | String ":"%char rest1 =>
                  match scan_value fuel' (skip_ws rest1) with
                  | Some (v, rest2) =>
                      let acc' := Py.dict_set acc key v in
                      match skip_ws rest2 with
                      | String "}"%char rest3 => Some (acc', rest3)
                      | String ","%char rest3 =>
                          scan_members fuel' (skip_ws rest3) acc'
                      | _ => None
                      end
                  | None => None
                  end
              | _ => None
              end
          | None => None
          end
      | "" => None
      end
  end.

Definition loads (s : string) : option json :=
  match scan_value (S (length s)) (skip_ws s) with
  | Some (v, rest) =>
      match skip_ws rest with
      | "" => Some v
      | _ => None
      end
  | None => None
  end.

Definition hex_digit (n : nat) : ascii :=
  if (n <? 10)%nat then ascii_of_nat (48 + n) else ascii_of_nat (87 + n).

(** One character of a string as [json.dumps(..., ensure_ascii=False)]
    writes it. *)
Definition escape_char (c : ascii) : string :=
  let n := nat_of_ascii c in
  if Ascii.eqb c dquote then String "\"%char (String dquote "")
  else if Ascii.eqb c "\"%char then "\\"
  else if (n =? 10)%nat then "\n"
  else if (n =? 13)%nat then "\r"
  else if (n =? 9)%nat then "\t"
  else if (n =? 8)%nat then "\b"
  else if (n =? 12)%nat then "\f"
  else if (n <? 32)%nat
  then "\u00" ++ String (hex_digit (n / 16)) (String (hex_digit (n mod 16)) "")
  else String c "".

Fixpoint escape (s : string) : string :=
  match s with
  | "" => ""
  | String c s' => escape_char c ++ escape s'
  end.

Definition quote (s : string) : string :=
  String dquote (escape s ++ String dquote "").

Fixpoint dumps (v : json) : string :=
  match v with
  | JNull => "null"
  | JBool true => "true"
  | JBool false => "false"
  | JInt z => str_of_Z z
  | JFloat r => r
  | JStr s => quote s
  | JList l => "[" ++ join ", " (map dumps l) ++ "]"
  | JDict d =>
      "{" ++ join ", "
               (map (fun kv => match kv with
                               | (k, x) => quote k ++ ": " ++ dumps x
                               end) d) ++ "}"
  end.

(** [str] on a scalar; a container is printed as JSON text, which is not
    Python's [repr]. *)
Definition str (v : json) : string :=
  match v with
  | JNull => "None"
  | JBool true => "True"
  | JBool false => "False"
  | JStr s => s
  | _ => dumps v
  end.

Fixpoint hash (s : string) : Z :=
  match s with
  | "" => 0%Z
  | String c s' => (Z.of_nat (nat_of_ascii c) + 31 * hash s')%Z
  end.

#[export] Instance runtime : Runtime := {|
  json_loads := loads;
  json_dumps := dumps;
  py_str := str;
  py_hash := hash;
  now := 1700000000%Z;
  exn_str := fun _ => "error"
|}.

End RefRuntime.

(** ** Vocabulary of the properties *)

Module Spec.
Import Re HarmonyParser.

Definition first_char (s : string) : option ascii :=
  match s with
  | String c _ => Some c
  | "" => None
  end.

Fixpoint last_char (s : string) : option ascii :=
  match s with
  | "" => None
  | String c "" => Some c
  | String _ s' => last_char s'
  end.

Definition is_space_at (o : option ascii) : bool :=
  match o with
  | Some c => isspace c
  | None => false
  end.


(** The four fields of a segment, as the parser reads them. *)
Definition channel_of (m : captures) : string := field m "channel".
Definition recipient_of (m : captures) : string := field m "recipient".
Definition constrain_of (m : captures) : string := field m "constrain".
Definition content_of (m : captures) : string := field m "content".

(** The segments of a block, from the left. *)
Definition segments (block : string) : list captures :=
  finditer CHANNEL_PATTERN block.

(** A commentary segment with a recipient. *)
Definition is_invocation (m : captures) : bool :=
  String.eqb (channel_of m) "commentary"
  && negb (String.eqb (recipient_of m) "").

Definition is_final (m : captures) : bool := String.eqb (channel_of m) "final".


(** All offsets at which [pat] occurs in [s], in increasing order. *)
Definition occurrences (pat s : string) : list nat :=
  filter (fun p => prefix pat (drop p s)) (seq 0 (length s)).

(** The texts between neighbouring offsets of [ps]. *)
Fixpoint blocks_between (ps : list nat) (s : string) : list string :=
  match ps with
  | p :: ((q :: _) as rest) => slice p q s :: blocks_between rest s
  | _ => []
  end.

Fixpoint all_space (s : string) : bool :=
  match s with
  | "" => true
  | String c s' => isspace c && all_space s'
  end.

Fixpoint all_digits (s : string) : bool :=
  match s with
  | "" => true
  | String c s' =>
      (48 <=? nat_of_ascii c)%nat && (nat_of_ascii c <=? 57)%nat
      && all_digits s'
  end.

(** The [id] field of an entry of a call list. *)
Definition entry_id (entry : json) : option string :=
  match entry with
  | JDict d =>
      match Py.dict_get d "id" with
      | Some (JStr s) => Some s
      | _ => None
      end
  | _ => None
  end.

(** The entries of [choices[0].delta.tool_calls] of a chunk. *)
Definition chunk_calls (chunk : json) : list json :=
  match chunk with
  | JDict d =>
      match Py.dict_get d "choices" with
      | Some (JList (JDict choice :: _)) =>
          match Py.dict_get choice "delta" with
          | Some (JDict delta) =>
              match Py.dict_get delta "tool_calls" with
              | Some (JList calls) => calls
              | _ => []
              end
          | _ => []
          end
      | _ => []
      end
  | _ => []
  end.

(** The call identifiers of everything written for one response. *)
Definition written_call_ids (ws : list client_write) : list (option string) :=
  flat_map (fun w => match w with
                     | Emit chunk => map entry_id (chunk_calls chunk)
                     | _ => []
                     end) ws.



(** The channel-boundary marker. *)
Definition marker : string := "<|channel|>".

(** The occurrences of the marker in [s], read off by one pass over [s];
    [pos] is the offset of [s] in the scanned text. *)
Fixpoint marker_offsets (s : string) (pos : nat) : list nat :=
  match s with
  | "" => []
  | String _ s' =>
      if prefix marker s then pos :: marker_offsets s' (S pos)
      else marker_offsets s' (S pos)
  end.

(** [s] cut at every occurrence of the marker: the text before the first
    occurrence, and the pieces that start at an occurrence, in order. *)
Fixpoint chop (s : string) : string * list string :=
  match s with
  | "" => ("", [])
  | String c s' =>
      let (h, t) := chop s' in
      if prefix marker s then ("", String c h :: t) else (String c h, t)
  end.

(** The offsets at which consecutive pieces start, the first at [p]. *)
Fixpoint starts (p : nat) (pieces : list string) : list nat :=
  match pieces with
  | [] => []
  | x :: rest => p :: starts (p + length x) rest
  end.

Section WithRuntime.
Context {rt : Runtime}.




(** What one segment adds to each field of the result. *)
Definition final_part (m : captures) : string :=
  if is_final m then content_of m else "".

Definition analysis_part (m : captures) : list string :=
  if is_final m then []
  else if String.eqb (channel_of m) "analysis" then [content_of m] else [].

Definition commentary_part (m : captures) : list string :=
  if is_final m then []
  else if String.eqb (channel_of m) "analysis" then []
  else if String.eqb (channel_of m) "commentary"
          && String.eqb (recipient_of m) ""
       then [content_of m] else [].

Definition tool_part (m : captures) : list tool_call :=
  if is_final m then []
  else if String.eqb (channel_of m) "analysis" then []
  else if is_invocation m
       then [{| name := replace "functions." "" (recipient_of m);
                arguments := tool_arguments (constrain_of m) (content_of m) |}]
       else [].

(** A chunk shaped after [base_chunk] whose delta carries [text] as its
    content. *)
Definition content_chunk (base_chunk : dict) (text : string) : json :=
  JDict (Bridge.set_delta (Bridge._make_base_chunk_like base_chunk)
           [("content", JStr text)]).

(** The text a block of final segments is rendered to: the contents of its
    segments, each trimmed, one after the other. *)
Definition final_text (block : string) : string :=
  String.concat "" (map content_of (segments block)).

(** Nothing for an empty text, else one chunk carrying it. *)
Definition text_chunks (base_chunk : dict) (text : string) : list json :=
  if String.eqb text "" then [] else [content_chunk base_chunk text].

(** What the extraction step does with one complete block. *)
Definition render_block (self : LMStudioBridge) (base_chunk : dict)
    (block : string) : list json :=
  Bridge.emit_parsed self (Bridge._make_base_chunk_like base_chunk)
    (parse_block block).

(** [raw_line] is an upstream line that carries the decoded chunk [chunk]:
    not blank, not the end marker, with the [data: ] prefix and a JSON
    object after it. *)
Definition data_line (raw_line : string) (chunk : dict) : Prop :=
  strip raw_line <> ""
  /\ strip raw_line <> "data: [DONE]"
  /\ startswith "data: " (strip raw_line) = true
  /\ json_loads (drop 6 (strip raw_line)) = Some (JDict chunk).

(** Some write of [ws] has [tag] in its bytes. *)
Definition leaks (tag : string) (ws : list client_write) : bool :=
  existsb (fun w => contains tag (Bridge.wire w)) ws.


End WithRuntime.
End Spec.

(** ** Sample inputs *)

Module Samples.
Import RefRuntime.

Definition xml_bridge : LMStudioBridge :=
  {| lm_studio_url := "http://localhost:1234"; port := 8000;
     xml_mode := true; req_id := 0 |}.

Definition json_bridge : LMStudioBridge :=
  {| lm_studio_url := "http://localhost:1234"; port := 8000;
     xml_mode := false; req_id := 0 |}.

(** A streaming chunk of completion [cmpl-1] whose delta carries [content]. *)
Definition chunk_with (content : string) : dict :=
  [("id", JStr "cmpl-1");
   ("choices",
    JList [JDict [("index", JInt 0);
                  ("delta", JDict [("content", JStr content)])]])].

(** The upstream line for that chunk: the prefix [data: ] and the JSON text
    of the chunk. *)
Definition fragment (content : string) : string :=
  "data: " ++ dumps (JDict (chunk_with content)).

Definition done_line : string := "data: [DONE]".

(** An upstream body that ends after its last line. *)
Definition body (ls : list string) : upstream :=
  {| lines := ls; broken := false |}.


(** A connection in buffering mode that holds one pending block. *)
Definition buffering : HarmonyStreamState :=
  {| harmony_mode := true; buf := "<|channel|>analysis<|message|>thinking" |}.

(** A whole-body response whose message content is [content]. *)
Definition completion (content : json) : json :=
  JDict [("choices",
          JList [JDict [("index", JInt 0);
                        ("message", JDict [("role", JStr "assistant");
                                           ("content", content)])]])].

Definition json_body (data : json) : upstream_body :=
  {| text := dumps data; decoded := Some data |}.

(** A body that is not JSON. *)
Definition text_body (t : string) : upstream_body :=
  {| text := t; decoded := None |}.

End Samples.

(** ** Vocabulary of the further properties *)

Module More.
Import Re HarmonyParser XMLFormatter Spec.

(** What [_esc] makes of one character. *)
Definition esc_char (c : ascii) : string :=
  if Ascii.eqb c "&" then "&amp;"
  else if Ascii.eqb c "<" then "&lt;"
  else if Ascii.eqb c ">" then "&gt;"
  else if Ascii.eqb c (ascii_of_nat 34) then "&quot;"
  else if Ascii.eqb c "'" then "&apos;"
  else String c "".

(** [s] with every character replaced by the text [f] gives for it. *)
Fixpoint subst_chars (f : ascii -> string) (s : string) : string :=
  match s with
  | "" => ""
  | String c s' => f c ++ subst_chars f s'
  end.

(** [c] occurs in [s]. *)
Fixpoint has_char (c : ascii) (s : string) : bool :=
  match s with
  | "" => false
  | String x s' => Ascii.eqb x c || has_char c s'
  end.

(** None of the five characters that [_esc] replaces occurs in [s]. *)
Definition plain_text (s : string) : Prop :=
  has_char "&" s = false /\ has_char "<" s = false /\ has_char ">" s = false
  /\ has_char (ascii_of_nat 34) s = false /\ has_char "'" s = false.

(** A translated chunk as the client expects it: the four fields of the
    chunk, and one choice with index 0, no finish reason and a delta that
    holds either a non-empty content or a non-empty call list. *)
Definition chunk_shape (out : json) : Prop :=
  exists i o c m k v,
    out = JDict [("id", i); ("object", o); ("created", c); ("model", m);
                 ("choices",
                  JList [JDict [("index", JInt 0); ("delta", JDict [(k, v)]);
                                ("finish_reason", JNull)]])]
    /\ ((k = "content" /\ exists t, v = JStr t /\ t <> "")
        \/ (k = "tool_calls" /\ exists l, v = JList l /\ l <> [])).

Definition write_shape (w : client_write) : Prop :=
  match w with
  | Emit out => chunk_shape out
  | _ => True
  end.

Definition is_analysis (m : captures) : bool :=
  String.eqb (channel_of m) "analysis".

(** A commentary segment without a recipient. *)
Definition is_note (m : captures) : bool :=
  String.eqb (channel_of m) "commentary" && String.eqb (recipient_of m) "".

(** The content of the message of the first choice of a whole body, when
    the body has one and it is a text. *)
Definition message_text (data : json) : option string :=
  match data with
  | JDict d =>
      match Py.dict_get d "choices" with
      | Some (JList (JDict choice :: _)) =>
          match Py.dict_get choice "message" with
          | Some (JDict m) =>
              match Py.dict_get m "content" with
              | Some (JStr raw) => Some raw
              | _ => None
              end
          | _ => None
          end
      | _ => None
      end
  | _ => None
  end.

(** A text made of slashes. *)
Fixpoint only_slashes (s : string) : bool :=
  match s with
  | "" => true
  | String c s' => Ascii.eqb c "/" && only_slashes s'
  end.

(** The parts of [CHANNEL_PATTERN] after the channel marker. *)
Definition channel_group : regex := Group "channel" (Many true 1 isword).

Definition recipient_part : regex :=
  Opt (Seq (Many true 1 isspace)
        (Seq (Lit "to=") (Group "recipient" (Many true 1 not_lt_or_space)))).

Definition constrain_part : regex :=
  Opt (Seq (Many true 0 isspace)
        (Seq (Lit "<|constrain|>") (Group "constrain" (Many true 1 isword)))).

Definition content_tail : regex :=
  Seq (Group "content" (Many false 0 any_char))
      (Ahead (Alt (Lit "<|channel|>") EndZ)).

(** The continuation that ends a match. *)
Definition finish : cont := fun s c => Some (s, c).

(** The look-ahead that ends a content: a channel marker or the end of the
    text. *)
Definition boundary_ahead : regex := Ahead (Alt (Lit "<|channel|>") EndZ).

(** What follows the lazy repetition of the content group that began at
    the head of [s]: the content is noted and the look-ahead is tried. *)
Definition content_end (s : string) : cont :=
  fun s' c' =>
    run boundary_ahead s' (("content", take (length s - length s') s) :: c')
      finish.

(** No channel marker starts inside [u] when [rest] follows it. *)
Fixpoint clear_of_marker (u rest : string) : bool :=
  match u with
  | "" => true
  | String _ u' => negb (prefix marker (u ++ rest)) && clear_of_marker u' rest
  end.

(** The result of a match on [u ++ rest] that a match on [u] stands for. *)
Definition lift (rest : string) (r : option (string * captures))
    : option (string * captures) :=
  match r with
  | Some (s, c) => Some (s ++ rest, c)
  | None => None
  end.

(** [p] and [q] differ at a position that both have. *)
Fixpoint clash (p q : string) : bool :=
  match p, q with
  | String a p', String b q' => if Ascii.eqb a b then clash p' q' else true
  | _, _ => false
  end.

(** A literal that cannot run into a following channel marker: it does not
    begin like the marker, and [<] is at most its first character. *)
Definition lit_safe (p : string) : bool :=
  match p with
  | "" => false
  | String _ p' => negb (has_char "<" p') && clash p marker
  end.

(** Patterns whose match on a text is not changed by a channel marker that
    follows the text. *)
Fixpoint safe (r : regex) : bool :=
  match r with
  | Lit p => lit_safe p
  | Many true _ cls => negb (cls "<"%char)
  | Seq r1 r2 | Alt r1 r2 => safe r1 && safe r2
  | Opt r1 | Group _ r1 => safe r1
  | _ => false
  end.

(** The continuations [k1] and [k2] agree on the texts of [D], [k2] being
    given the text with [rest] after it. *)
Definition agree (rest : string) (D : string -> Prop) (k1 k2 : cont) : Prop :=
  forall u c, D u -> k2 (u ++ rest) c = lift rest (k1 u c).

(** Each piece begins with a channel marker and holds no other one, also
    when the later pieces follow it. *)
Fixpoint pieces_ok (t : list string) : Prop :=
  match t with
  | [] => True
  | x :: t' =>
      prefix marker x = true
      /\ clear_of_marker (drop 1 x) (String.concat "" t') = true
      /\ pieces_ok t'
  end.

(** Case analysis on the value that hypothesis [H] inspects first. *)
Ltac split_match H :=
  match type of H with
  | context [match ?x with _ => _ end] => destruct x eqn:?; try discriminate H
  end.

Section WithRuntime.
Context {rt : Runtime}.

(** The states a connection can be in: the initial one, and those that an
    iteration of the loop leaves behind. *)
Inductive reachable (self : LMStudioBridge) : HarmonyStreamState -> Prop :=
| reach_new : reachable self new_state
| reach_step st raw_line st' ws :
    reachable self st ->
    Bridge.process_line self st raw_line = Next st' ws ->
    reachable self st'.

(** A line that the loop passes over: blank, or without the [data: ]
    prefix, or with text after the prefix that does not decode. *)
Definition ignored_line (raw_line : string) : Prop :=
  strip raw_line = ""
  \/ (strip raw_line <> "data: [DONE]"
      /\ (startswith "data: " (strip raw_line) = false
          \/ json_loads (drop 6 (strip raw_line)) = None)).

(** A data line whose content is absent or empty, or a text without any of
    the tokens that [has_harmony] looks for. *)
Definition plain_line (raw_line : string) : Prop :=
  exists chunk content,
    data_line raw_line chunk
    /\ Bridge.delta_content chunk = Ok content
    /\ (Py.truthy content = false
        \/ exists c, content = JStr c /\ has_harmony c = false).




(** A number or a truth value. *)
Definition scalar (v : json) : bool :=
  match v with
  | JBool _ | JInt _ | JFloat _ => true
  | _ => false
  end.

(** A line with the [data: ] prefix whose payload decodes, but not to a
    chunk the loop can read: the payload is not an object, or the content
    of its delta is a number other than zero or [true]. *)
Definition broken_line (raw_line : string) : Prop :=
  strip raw_line <> ""
  /\ strip raw_line <> "data: [DONE]"
  /\ startswith "data: " (strip raw_line) = true
  /\ ((exists v, json_loads (drop 6 (strip raw_line)) = Some v
                 /\ Py.is_dict v = false)
      \/ (exists chunk content,
            json_loads (drop 6 (strip raw_line)) = Some (JDict chunk)
            /\ Bridge.delta_content chunk = Ok content
            /\ Py.truthy content = true
            /\ scalar content = true)).


End WithRuntime.

End More.

(** * Properties *)

(** ** Strings *)

Module PyStrFacts.
Import Spec.

Lemma append_nil_r (s : string) : s ++ "" = s.
Proof. induction s as [|c s IH]; simpl; [reflexivity | now rewrite IH]. Qed.

Lemma append_assoc (a b c : string) : (a ++ b) ++ c = a ++ (b ++ c).
Proof. induction a as [|x a IH]; simpl; [reflexivity | now rewrite IH]. Qed.

Lemma length_append (a b : string) : length (a ++ b) = length a + length b.
Proof. induction a as [|x a IH]; simpl; [reflexivity | now rewrite IH]. Qed.

Lemma rev_append (a b : string) : rev (a ++ b) = rev b ++ rev a.
Proof.
  induction a as [|x a IH]; simpl.
  - now rewrite append_nil_r.
  - now rewrite IH, append_assoc.
Qed.

Lemma rev_involutive (s : string) : rev (rev s) = s.
Proof.
  induction s as [|c s IH]; simpl; [reflexivity|].
  now rewrite rev_append, IH.
Qed.

Lemma first_char_append (a b : string) :
  first_char (a ++ b) = match a with "" => first_char b | _ => first_char a end.
Proof. now destruct a. Qed.


Lemma last_char_rev (s : string) : last_char s = first_char (rev s).
Proof.
  induction s as [|c s IH]; simpl; [reflexivity|].
  rewrite first_char_append. destruct s as [|d s]; [reflexivity|].
  rewrite IH. simpl. now destruct (rev s ++ String d "") eqn:E;
    [destruct (rev s); discriminate|].
Qed.

Lemma lstrip_first (s : string) : is_space_at (first_char (lstrip s)) = false.
Proof.
  induction s as [|c s IH]; simpl; [reflexivity|].
  destruct (isspace c) eqn:E; [exact IH | simpl; exact E].
Qed.






End PyStrFacts.

(** ** The block parser *)

Section ParserFacts.
Context {rt : Runtime}.
Import Re HarmonyParser Spec PyStrFacts.


Lemma parse_segment_parts (r : parsed) (m : captures) :
  parse_segment r m =
  {| final_message := final_message r ++ final_part m;
     analysis := (analysis r ++ analysis_part m)%list;
     tool_calls := (tool_calls r ++ tool_part m)%list;
     commentary := (commentary r ++ commentary_part m)%list |}.
Proof.
  unfold parse_segment, final_part, analysis_part, commentary_part, tool_part,
    is_invocation, is_final, channel_of, recipient_of, constrain_of, content_of.
  destruct r as [f a t c]; simpl.
  destruct (String.eqb (field m "channel") "final");
    [now rewrite !app_nil_r|].
  destruct (String.eqb (field m "channel") "analysis");
    [now rewrite append_nil_r, !app_nil_r|].
  destruct (String.eqb (field m "channel") "commentary"); simpl;
    [|now rewrite append_nil_r, !app_nil_r].
  destruct (String.eqb (field m "recipient") ""); simpl;
    now rewrite append_nil_r, !app_nil_r.
Qed.

Lemma fold_segments (ms : list captures) (r : parsed) :
  fold_left parse_segment ms r =
  {| final_message := final_message r ++ String.concat "" (map final_part ms);
     analysis := (analysis r ++ flat_map analysis_part ms)%list;
     tool_calls := (tool_calls r ++ flat_map tool_part ms)%list;
     commentary := (commentary r ++ flat_map commentary_part ms)%list |}.
Proof.
  revert r. induction ms as [|m ms IH]; intros r; simpl.
  - destruct r; simpl. now rewrite append_nil_r, !app_nil_r.
  - rewrite IH, parse_segment_parts; simpl.
    rewrite append_assoc, <- !app_assoc. f_equal.
    f_equal. destruct ms as [|m' ms]; simpl; [now rewrite append_nil_r|].
    reflexivity.
Qed.

Lemma concat_empty_sep_cons (x : string) (l : list string) :
  String.concat "" (x :: l) = x ++ String.concat "" l.
Proof. destruct l; simpl; [now rewrite append_nil_r | reflexivity]. Qed.

Lemma parse_block_parts (block : string) :
  parse_block block =
  {| final_message := String.concat "" (map final_part (segments block));
     analysis := flat_map analysis_part (segments block);
     tool_calls := flat_map tool_part (segments block);
     commentary := flat_map commentary_part (segments block) |}.
Proof. unfold parse_block. now rewrite fold_segments. Qed.







End ParserFacts.

(** ** Blocks of final text *)

Section FinalTextFacts.
Context {rt : Runtime}.
Variable self : LMStudioBridge.
Import Re HarmonyParser Spec PyStrFacts Bridge.

Lemma rev_empty (s : string) : rev s = "" -> s = "".
Proof.
  destruct s as [|c s]; [reflexivity|]. simpl.
  destruct (rev s); discriminate.
Qed.

Lemma lstrip_empty (s : string) : lstrip s = "" -> all_space s = true.
Proof.
  induction s as [|c s IH]; simpl; [reflexivity|].
  destruct (isspace c); [exact IH | discriminate].
Qed.

Lemma strip_empty (s : string) : strip s = "" -> all_space s = true.
Proof.
  unfold strip, rstrip. intros H. apply rev_empty in H.
  apply lstrip_empty.
  pose proof (lstrip_first s) as F.
  destruct (lstrip s) as [|c u] eqn:E; [reflexivity|]. exfalso.
  simpl in F.
  (* the last character of [rev (String c u)] is [c], which is not a space *)
  assert (L : all_space (rev u ++ String c "") = true)
    by (apply lstrip_empty; exact H).
  clear -L F. induction (rev u) as [|d v IH]; simpl in L.
  - rewrite F in L. discriminate.
  - apply andb_prop in L. now apply IH.
Qed.

Lemma space_is_not_lt (c : ascii) (s : string) :
  isspace c = true -> prefix "<|channel|>" (String c s) = false.
Proof.
  intros H.
  change (prefix "<|channel|>" (String c s))
    with (if ascii_dec "<" c then prefix "|channel|>" s else false).
  destruct (ascii_dec "<" c) as [<-|_]; [|reflexivity].
  discriminate H.
Qed.

Lemma match_needs_marker (s : string) :
  prefix "<|channel|>" s = false -> match_at CHANNEL_PATTERN s = None.
Proof.
  intros H. unfold match_at, CHANNEL_PATTERN. cbn [run]. now rewrite H.
Qed.

Lemma blank_has_no_segments (s : string) (k : nat) :
  all_space s = true -> finditer_from CHANNEL_PATTERN s k = [].
Proof.
  revert k. induction s as [|c s IH]; intros k H; cbn [finditer_from].
  - destruct k; [|reflexivity].
    now rewrite match_needs_marker.
  - simpl in H. apply andb_prop in H as [Hc Hs].
    destruct k; [|now apply IH].
    rewrite match_needs_marker by now apply space_is_not_lt.
    now apply IH.
Qed.

Lemma final_only_parts (ms : list captures) :
  forallb is_final ms = true ->
  map final_part ms = map content_of ms /\ flat_map tool_part ms = [].
Proof.
  induction ms as [|m ms IH]; simpl; [now split|].
  intros H. apply andb_prop in H as [Hm Hms].
  destruct (IH Hms) as [IH1 IH2]. unfold final_part at 1, tool_part at 1.
  rewrite Hm. simpl. now rewrite IH1, IH2.
Qed.

(** C6, as amended. For every block whose segments are all on the final
    channel, the formatted output carries the contents of the segments,
    each stripped of leading and trailing whitespace, one after the other:
    one chunk with that text as its content when it is not empty, and no
    chunk at all when it is; the flush of a trailing buffer does the same. *)
Theorem final_block_renders_trimmed_text (block : string) (base_chunk : dict) :
  forallb is_final (segments block) = true ->
  emit_parsed self (_make_base_chunk_like base_chunk) (parse_block block)
    = text_chunks base_chunk (final_text block)
  /\ _flush_harmony_buffer self block = text_chunks [] (final_text block).
Proof.
  intros H. destruct (final_only_parts _ H) as [Hf Ht].
  assert (E : forall b,
    emit_parsed self (_make_base_chunk_like b) (parse_block block)
    = text_chunks b (final_text block)).
  { intros b. rewrite parse_block_parts. unfold emit_parsed; simpl.
    rewrite Ht, Hf. unfold text_chunks, final_text, content_chunk.
    now destruct (String.eqb _ ""). }
  split; [apply E|].
  unfold _flush_harmony_buffer.
  destruct (String.eqb_spec (strip block) "") as [B|_]; [|apply E].
  unfold text_chunks, final_text, segments, finditer.
  now rewrite blank_has_no_segments by now apply strip_empty.
Qed.

End FinalTextFacts.

(** ** Call identifiers *)

Section CallListFacts.
Context {rt : Runtime}.
Import Spec PyStrFacts XMLFormatter.

Lemma to_uint_not_nil (n : nat) : Nat.to_uint n <> Decimal.Nil.
Proof.
  intros E. assert (n = 0) as -> by now rewrite <- (Unsigned.of_to n), E.
  discriminate E.
Qed.

Lemma str_of_nat_inj (i j : nat) : str_of_nat i = str_of_nat j -> i = j.
Proof.
  unfold str_of_nat. intros E.
  apply Unsigned.to_uint_inj.
  pose proof (NilZero.usu _ (to_uint_not_nil i)) as Hi.
  pose proof (NilZero.usu _ (to_uint_not_nil j)) as Hj.
  rewrite E in Hi. rewrite Hi in Hj. now injection Hj.
Qed.

Lemma uint_digits (d : Decimal.uint) :
  all_digits (NilEmpty.string_of_uint d) = true.
Proof. induction d; simpl; auto. Qed.

Lemma str_of_nat_digits (n : nat) : all_digits (str_of_nat n) = true.
Proof.
  unfold str_of_nat, NilZero.string_of_uint.
  destruct (Nat.to_uint n); try reflexivity; apply uint_digits.
Qed.

(** A run of digits before an underscore is determined by the whole text. *)
Lemma digits_before_underscore (a a' b b' : string) :
  all_digits a = true -> all_digits a' = true ->
  a ++ String "_" b = a' ++ String "_" b' -> a = a'.
Proof.
  revert a'. induction a as [|c a IH]; intros [|c' a'] Ha Ha' E; simpl in *.
  - reflexivity.
  - injection E as <- _. discriminate Ha'.
  - injection E as -> _. discriminate Ha.
  - injection E as -> E. f_equal.
    apply andb_prop in Ha as [_ Ha]. apply andb_prop in Ha' as [_ Ha'].
    now apply IH.
Qed.

Lemma call_id_inj (i j : nat) (tc tc' : tool_call) :
  call_id i tc = call_id j tc' -> i = j.
Proof.
  unfold call_id. intros E. simpl in E. injection E as E.
  apply str_of_nat_inj.
  eapply digits_before_underscore; [apply str_of_nat_digits ..| exact E].
Qed.

Lemma call_entries_ids (i : nat) (tcs : list tool_call) (x : option string) :
  In x (map entry_id (call_entries i tcs)) ->
  exists j tc, i <= j /\ x = Some (call_id j tc).
Proof.
  revert i. induction tcs as [|tc tcs IH]; intros i; simpl; [easy|].
  intros [<-|H].
  - exists i, tc. split; [lia | reflexivity].
  - destruct (IH _ H) as (j & tc' & Hj & ->). exists j, tc'. split; [lia|easy].
Qed.

Lemma call_entries_distinct (i : nat) (tcs : list tool_call) :
  NoDup (map entry_id (call_entries i tcs)).
Proof.
  revert i. induction tcs as [|tc tcs IH]; intros i; simpl; constructor.
  - intros H. apply call_entries_ids in H as (j & tc' & Hj & E).
    change (entry_id (call_entry i tc)) with (Some (call_id i tc)) in E.
    assert (E' : call_id i tc = call_id j tc') by congruence.
    apply call_id_inj in E'. lia.
  - apply IH.
Qed.

(** C5, as amended. The call identifiers of one structured call list, that
    is of one rendering by the call-list formatter, are pairwise distinct. *)
Theorem call_ids_distinct_within_one_list (tcs : list tool_call) :
  NoDup (map entry_id (tool_calls_to_openai tcs)).
Proof. apply call_entries_distinct. Qed.

End CallListFacts.

(** ** The streaming loop *)

Section StreamFacts.
Context {rt : Runtime}.
Variable self : LMStudioBridge.
Import HarmonyParser Spec PyStrFacts Bridge.

Lemma has_harmony_dyn_str (c : string) :
  has_harmony_dyn (JStr c) = Ok (has_harmony c).
Proof.
  unfold has_harmony_dyn, has_harmony; simpl.
  destruct (contains "<|channel|>" c); [reflexivity|].
  destruct (contains "<|message|>" c); reflexivity.
Qed.












(** C4, as amended. A body that cannot be decoded as JSON is returned as the
    raw upstream text, unmodified; an exception raised while the decoded
    body is being transformed is answered with status 500 and the error
    object [{error: {message, type: proxy_error}}], as happens for every
    body that decodes to something other than an object. *)
Theorem nonstream_failure_responses (lm_resp : upstream_body) :
  (decoded lm_resp = None ->
   _nonstream_transform self lm_resp = TextResponse (text lm_resp))
  /\ (forall data e,
        decoded lm_resp = Some data ->
        transform_data self data = Raise e ->
        _nonstream_transform self lm_resp = JsonResponse 500 (error_body e))
  /\ (forall data,
        decoded lm_resp = Some data ->
        Py.is_dict data = false ->
        _nonstream_transform self lm_resp
        = JsonResponse 500 (error_body AttributeError)).
Proof.
  unfold _nonstream_transform. split; [|split].
  - now intros ->.
  - now intros data e -> ->.
  - intros data -> H. now destruct data.
Qed.

End StreamFacts.

(** ** Occurrences of the channel marker *)

Module MarkerFacts.
Import Spec PyStrFacts.

Lemma prefix_cons (a c : ascii) (p s : string) :
  prefix (String a p) (String c s) = if ascii_dec a c then prefix p s else false.
Proof. reflexivity. Qed.

Lemma prefix_nil (s : string) : prefix "" s = true.
Proof. now destruct s. Qed.

Lemma prefix_split (p s : string) :
  prefix p s = true -> s = p ++ drop (length p) s.
Proof.
  revert s. induction p as [|a p IH]; intros s H; [now destruct s|].
  destruct s as [|c s]; [discriminate|].
  rewrite prefix_cons in H. destruct (ascii_dec a c) as [->|]; [|discriminate].
  simpl. f_equal. now apply IH.
Qed.

Lemma prefix_append (p s t : string) :
  prefix p s = true -> prefix p (s ++ t) = true.
Proof.
  revert s. induction p as [|a p IH]; intros s H; [apply prefix_nil|].
  destruct s as [|c s]; [discriminate|].
  simpl append. rewrite prefix_cons in *.
  destruct (ascii_dec a c); [now apply IH | discriminate].
Qed.

(** Text that is at least as long as the pattern decides the test. *)
Lemma prefix_append_long (p s t : string) :
  length p <= length s -> prefix p (s ++ t) = prefix p s.
Proof.
  revert s. induction p as [|a p IH]; intros s H;
    [now rewrite !prefix_nil|].
  destruct s as [|c s]; [simpl in H; lia|].
  simpl append. rewrite !prefix_cons.
  destruct (ascii_dec a c); [apply IH; simpl in H; lia | reflexivity].
Qed.

Lemma drop_append_marker (i : nat) (t : string) :
  0 < i < 11 -> prefix marker (drop i (marker ++ t)) = false.
Proof.
  intros [H1 H2]. unfold marker.
  do 11 (destruct i as [|i]; [try lia; reflexivity|]). lia.
Qed.

(** Two occurrences of the marker do not overlap. *)
Lemma marker_no_overlap (s : string) (i : nat) :
  prefix marker s = true -> 0 < i < 11 -> prefix marker (drop i s) = false.
Proof.
  intros H Hi. rewrite (prefix_split _ _ H). now apply drop_append_marker.
Qed.

Lemma drop_cons (i : nat) (c : ascii) (s : string) :
  drop (S i) (String c s) = drop i s.
Proof. reflexivity. Qed.

Lemma drop_0 (s : string) : drop 0 s = s.
Proof. now destruct s. Qed.

(** The scan of [re.finditer] finds every occurrence: the characters it
    passes over after a match hold no occurrence. *)
Lemma find_all_from_offsets (s : string) (pos k : nat) :
  (forall j, j < k -> prefix marker (drop j s) = false) ->
  find_all_from marker s pos k = marker_offsets s pos.
Proof.
  revert pos k. induction s as [|c s IH]; intros pos k H; [reflexivity|].
  cbn [find_all_from marker_offsets]. destruct k as [|k].
  - destruct (prefix marker (String c s)) eqn:E.
    + f_equal. apply IH. intros j Hj. simpl in Hj.
      rewrite <- (drop_cons j c s). apply marker_no_overlap; [exact E | lia].
    + apply IH. intros j Hj. lia.
  - rewrite <- (drop_0 (String c s)), H by lia.
    apply IH. intros j Hj. rewrite <- (drop_cons j c s). apply H. lia.
Qed.

Lemma find_all_offsets (s : string) : find_all marker s = marker_offsets s 0.
Proof. apply find_all_from_offsets. intros j Hj. lia. Qed.

Lemma occurrences_from (s : string) (pos : nat) :
  filter (fun p => prefix marker (drop (p - pos) s)) (seq pos (length s))
  = marker_offsets s pos.
Proof.
  revert pos. induction s as [|c s IH]; intros pos; [reflexivity|].
  cbn [length seq filter marker_offsets].
  rewrite Nat.sub_diag, drop_0.
  assert (E : filter (fun p => prefix marker (drop (p - pos) (String c s)))
                (seq (S pos) (length s))
              = marker_offsets s (S pos)).
  { rewrite <- IH. apply filter_ext_in. intros p Hp. apply in_seq in Hp.
    replace (p - pos) with (S (p - S pos)) by lia. reflexivity. }
  rewrite E. reflexivity.
Qed.

(** The scan of the source returns all the occurrences of the marker. *)
Lemma find_all_occurrences (s : string) :
  find_all marker s = occurrences marker s.
Proof.
  rewrite find_all_offsets. unfold occurrences. rewrite <- occurrences_from.
  apply filter_ext. intros p. now rewrite Nat.sub_0_r.
Qed.

End MarkerFacts.

(** ** The extraction step *)

Section ExtractFacts.
Context {rt : Runtime}.
Variable self : LMStudioBridge.
Import HarmonyParser Spec PyStrFacts MarkerFacts Bridge.

Lemma chop_text (s : string) :
  s = fst (chop s) ++ String.concat "" (snd (chop s)).
Proof.
  induction s as [|c s IH]; [reflexivity|].
  cbn [chop]. destruct (chop s) as [h t]. cbn [fst snd] in IH.
  destruct (prefix marker (String c s)); cbn [fst snd].
  - rewrite concat_empty_sep_cons. simpl. now rewrite <- IH.
  - simpl. now rewrite <- IH.
Qed.

Lemma chop_offsets (s : string) (pos : nat) :
  marker_offsets s pos = starts (pos + length (fst (chop s))) (snd (chop s)).
Proof.
  revert pos. induction s as [|c s IH]; intros pos; [reflexivity|].
  cbn [chop marker_offsets]. specialize (IH (S pos)).
  destruct (chop s) as [h t]. simpl in IH.
  destruct (prefix marker (String c s)); simpl.
  - rewrite Nat.add_0_r. f_equal. rewrite IH. f_equal. lia.
  - rewrite IH. f_equal. lia.
Qed.

Lemma drop_length_append (a b : string) : drop (length a) (a ++ b) = b.
Proof. induction a as [|c a IH]; [apply drop_0 | exact IH]. Qed.

Lemma take_length_append (a b : string) : take (length a) (a ++ b) = a.
Proof.
  induction a as [|c a IH]; [now destruct b | simpl; now rewrite IH].
Qed.

Lemma slice_middle (h x rest : string) :
  slice (length h) (length h + length x) (h ++ x ++ rest) = x.
Proof.
  unfold slice. rewrite drop_length_append.
  replace (length h + length x - length h) with (length x) by lia.
  apply take_length_append.
Qed.

(** The texts between neighbouring occurrences are the pieces but the
    last, and the text from the last occurrence on is the last piece. *)
Lemma pieces_between (t : list string) (h : string) :
  blocks_between (starts (length h) t) (h ++ String.concat "" t)
  = removelast t.
Proof.
  revert h. induction t as [|x t IH]; intros h; [reflexivity|].
  destruct t as [|y t]; [reflexivity|].
  cbn [starts blocks_between]. rewrite !concat_empty_sep_cons.
  rewrite slice_middle. cbn [removelast]. f_equal.
  specialize (IH (h ++ x)). rewrite length_append in IH.
  cbn [starts] in IH. rewrite concat_empty_sep_cons, append_assoc in IH.
  exact IH.
Qed.

Lemma last_piece (t : list string) (h : string) :
  t <> [] ->
  drop (last (starts (length h) t) 0) (h ++ String.concat "" t) = last t "".
Proof.
  revert h. induction t as [|x t IH]; intros h H; [contradiction|].
  destruct t as [|y t].
  - simpl. rewrite drop_length_append. reflexivity.
  - specialize (IH (h ++ x)). rewrite length_append in IH.
    cbn [starts last] in *. rewrite concat_empty_sep_cons, <- append_assoc.
    apply IH. discriminate.
Qed.

Lemma starts_length (p : nat) (t : list string) :
  List.length (starts p t) = List.length t.
Proof. revert p. induction t; intros p; simpl; auto. Qed.

(** The loop over indices visits the neighbouring pairs in order. *)
Lemma index_loop_between (f : string -> list json) (s : string)
    (ps : list nat) :
  flat_map (fun i => f (slice (nth i ps 0) (nth (i + 1) ps 0) s))
    (seq 0 (List.length ps - 1))
  = flat_map f (blocks_between ps s).
Proof.
  induction ps as [|p ps IH]; [reflexivity|].
  destruct ps as [|q ps]; [reflexivity|].
  replace (List.length (p :: q :: ps) - 1) with (S (List.length (q :: ps) - 1))
    by (simpl; lia).
  rewrite <- cons_seq, <- seq_shift. cbn [flat_map blocks_between].
  rewrite flat_map_concat_map, map_map, <- flat_map_concat_map.
  cbn [nth Nat.add]. f_equal. exact IH.
Qed.


Lemma extract_unfold (b : string) (base_chunk : dict) :
  _extract_ready_blocks self b base_chunk =
  if (List.length (occurrences marker b) <=? 1)%nat then ([], b)
  else (flat_map (render_block self base_chunk)
          (blocks_between (occurrences marker b) b),
        drop (last (occurrences marker b) 0) b).
Proof.
  unfold _extract_ready_blocks. fold marker.
  rewrite find_all_occurrences.
  destruct (_ <=? 1)%nat; [reflexivity|]. f_equal.
  apply (index_loop_between (render_block self base_chunk)).
Qed.

(** The extraction step in terms of the pieces of the buffer. *)
Lemma extract_pieces (b : string) (base_chunk : dict) :
  _extract_ready_blocks self b base_chunk =
  if (List.length (snd (chop b)) <=? 1)%nat then ([], b)
  else (flat_map (render_block self base_chunk) (removelast (snd (chop b))),
        last (snd (chop b)) "").
Proof.
  rewrite extract_unfold, <- find_all_occurrences, find_all_offsets.
  rewrite chop_offsets, starts_length. simpl.
  pose proof (chop_text b) as T.
  destruct (chop b) as [h t]; cbn [fst snd] in *.
  destruct (List.length t <=? 1)%nat eqn:L; [reflexivity|].
  subst b. rewrite pieces_between, last_piece; [reflexivity|].
  intros ->. discriminate L.
Qed.


Lemma chop_some_long (s : string) : snd (chop s) <> [] -> 11 <= length s.
Proof.
  induction s as [|c s IH]; [now intros H|].
  cbn [chop]. destruct (chop s) as [h t].
  destruct (prefix marker (String c s)) eqn:E; cbn [snd].
  - intros _. rewrite (prefix_split _ _ E), length_append. simpl. lia.
  - intros H. specialize (IH H). simpl. lia.
Qed.

(** More text after the buffer only changes its last piece. *)
Lemma chop_append (s c : string) :
  snd (chop s) <> [] ->
  chop (s ++ c)
  = (fst (chop s),
     (removelast (snd (chop s))
      ++ snd (chop (last (snd (chop s)) "" ++ c)))%list)
  /\ snd (chop (last (snd (chop s)) "" ++ c)) <> []
  /\ fst (chop (last (snd (chop s)) "" ++ c)) = "".
Proof.
  induction s as [|x s IH]; [now intros H|].
  intros H. pose proof (chop_text s) as T. pose proof (chop_some_long s) as G.
  cbn [chop append] in *. destruct (chop s) as [h t]; cbn [fst snd] in *.
  destruct t as [|y t].
  - (* the first occurrence in [String x s] is at its head *)
    simpl in T. rewrite append_nil_r in T. subst h.
    destruct (prefix marker (String x s)) eqn:E; [|now cbn [snd] in H].
    cbn [snd removelast last app fst].
    pose proof (prefix_append _ _ c E) as E'. cbn [append] in E'.
    cbn [append chop]. rewrite E'.
    destruct (chop (s ++ c)) as [h' t'].
    split; [reflexivity | split; [discriminate | reflexivity]].
  - destruct IH as [IH1 IH2]; [discriminate|].
    assert (L : 11 <= length (String x s)).
    { assert (G' : 11 <= length s) by (apply G; discriminate). simpl. lia. }
    pose proof (prefix_append_long marker (String x s) c L) as P.
    cbn [append] in P. rewrite P, IH1.
    destruct (prefix marker (String x s)); cbn [fst snd];
      (split; [reflexivity | exact IH2]).
Qed.



End ExtractFacts.

(** ** A marker split over two fragments *)

Section SplitFacts.
Context {rt : Runtime}.
Variable self : LMStudioBridge.
Import HarmonyParser Spec PyStrFacts MarkerFacts Bridge.


Lemma process_data_line (st : HarmonyStreamState) (raw_line : string)
    (chunk : dict) :
  data_line raw_line chunk ->
  process_line self st raw_line = on_chunk self st (strip raw_line) chunk.
Proof.
  intros (H1 & H2 & H3 & H4). unfold process_line.
  apply String.eqb_neq in H1, H2. now rewrite H1, H2, H3, H4.
Qed.



End SplitFacts.

(** ** Runs on sample inputs *)

Section Runs.
Import RefRuntime HarmonyParser XMLFormatter Spec Bridge Samples.

(** The stream of three blocks: nothing is written for the analysis block,
    the first final block is translated when the next marker arrives, with
    the metadata of the chunk that completed it, and the trailing block is
    flushed at the end marker. *)
Example three_blocks_stream :
  _stream_transform xml_bridge
    (body [fragment "<|channel|>analysis<|message|>thinking";
           fragment "<|channel|>final<|message|>Hello";
           fragment "<|channel|>final<|message|> world";
           done_line])
  = ([Emit (content_chunk (chunk_with "") "Hello");
      Emit (content_chunk [] "world");
      DoneSentinel], Completed).
Proof. vm_compute. reflexivity. Qed.

(** A tool call with JSON arguments, in both output modes. *)
Example search_call_as_xml :
  tool_calls_to_xml
    (tool_calls
       (parse_block
          ("<|channel|>commentary to=functions.search <|constrain|>json<|message|>"
           ++ dumps (JDict [("q", JStr "cats")]))))
  = "<search>" ++ nl ++ "<q>cats</q>" ++ nl ++ "</search>".
Proof. vm_compute. reflexivity. Qed.

Example search_call_as_list :
  tool_calls_to_openai
    (tool_calls
       (parse_block
          ("<|channel|>commentary to=functions.search <|constrain|>json<|message|>"
           ++ dumps (JDict [("q", JStr "cats")]))))
  = [JDict [("id", JStr ("call_0_" ++ str_of_Z (Z.abs (hash "search") mod 10000)));
            ("type", JStr "function");
            ("function",
             JDict [("name", JStr "search");
                    ("arguments", JStr (dumps (JDict [("q", JStr "cats")])))])]].
Proof. vm_compute. reflexivity. Qed.

(** A whole body with Harmony markup in its message. *)
Example whole_body_final_text :
  _nonstream_transform xml_bridge
    (json_body (completion (JStr "<|channel|>analysis<|message|>hm<|channel|>final<|message|> hi ")))
  = JsonResponse 200
      (JDict [("choices",
               JList [JDict [("index", JInt 0);
                             ("message", JDict [("role", JStr "assistant");
                                                ("content", JStr "hi")]);
                             ("finish_reason", JStr "stop")]])]).
Proof. vm_compute. reflexivity. Qed.

(** A whole body without markup is returned as it came. *)
Example whole_body_plain :
  _nonstream_transform xml_bridge (json_body (completion (JStr "hello")))
  = JsonResponse 200 (completion (JStr "hello")).
Proof. vm_compute. reflexivity. Qed.

(** C1. The transformer writes raw Harmony markers to the client. In
    buffering mode the content of a final segment is sent as it stands, so a
    [<|message|>] inside it reaches the client; in pass-through mode only
    three tokens are looked for, so a fragment with [<|constrain|>] is
    relayed; and the two halves of a split [<|channel|>] are relayed one
    after the other. *)
Theorem harmony_markers_reach_the_client :
  fst (_stream_transform xml_bridge
         (body [fragment "<|channel|>final<|message|>a<|message|>b";
                done_line]))
    = [Emit (content_chunk [] "a<|message|>b"); DoneSentinel]
  /\ leaks "<|message|>"
       (fst (_stream_transform xml_bridge
               (body [fragment "<|channel|>final<|message|>a<|message|>b";
                      done_line]))) = true
  /\ fst (_stream_transform xml_bridge (body [fragment "<|constrain|>json"]))
     = [Relay (fragment "<|constrain|>json")]
  /\ leaks "<|constrain|>"
       (fst (_stream_transform xml_bridge
               (body [fragment "<|constrain|>json"]))) = true
  /\ fst (_stream_transform xml_bridge
            (body [fragment "<|chan"; fragment "nel|>final"]))
     = [Relay (fragment "<|chan"); Relay (fragment "nel|>final")].
Proof. repeat split; vm_compute; reflexivity. Qed.





(** C4 fails for an exception raised by the transformation: the body [[]]
    decodes, has no [get], and is answered with the error object. *)
Lemma transform_exception_gives_error_object :
  _nonstream_transform xml_bridge (json_body (JList []))
    = JsonResponse 500 (error_body AttributeError)
  /\ _nonstream_transform xml_bridge (json_body (JList []))
     <> TextResponse (text (json_body (JList []))).
Proof. split; [vm_compute; reflexivity | vm_compute; discriminate]. Qed.

Lemma nonstream_failure_responses_witness :
  _nonstream_transform xml_bridge (text_body "<html>") = TextResponse "<html>"
  /\ _nonstream_transform xml_bridge (json_body (JList []))
     = JsonResponse 500 (error_body AttributeError).
Proof.
  split.
  - apply (proj1 (nonstream_failure_responses xml_bridge (text_body "<html>"))).
    reflexivity.
  - apply (proj1 (proj2 (nonstream_failure_responses xml_bridge
                           (json_body (JList [])))) (JList []) AttributeError);
      vm_compute; reflexivity.
Defined.

(** C5 fails across blocks: two blocks of one stream that call the same
    tool get the same identifier. *)
Lemma call_ids_repeat_across_blocks :
  written_call_ids
    (fst (_stream_transform json_bridge
            (body [fragment "<|channel|>commentary to=functions.f<|message|>a";
                   fragment "<|channel|>commentary to=functions.f<|message|>b";
                   fragment "<|channel|>final<|message|>done";
                   done_line])))
  = [Some "call_0_102"; Some "call_0_102"]
  /\ ~ NoDup [Some "call_0_102"; Some "call_0_102"].
Proof.
  split; [vm_compute; reflexivity|].
  intros H. inversion H as [|x l N _]; subst. apply N. now left.
Qed.

(** C6 fails on the example of the claim: the content [ world] of the
    trailing block is flushed without its leading space. *)
Lemma flushed_text_is_stripped :
  map (fun m => Re.group m "content")
      (segments "<|channel|>final<|message|> world") = [Some " world"]
  /\ forallb is_final (segments "<|channel|>final<|message|> world") = true
  /\ _flush_harmony_buffer xml_bridge "<|channel|>final<|message|> world"
     = [content_chunk [] "world"]
  /\ content_chunk [] "world" <> content_chunk [] " world".
Proof.
  repeat split; try (vm_compute; reflexivity). vm_compute. discriminate.
Qed.

Lemma final_block_renders_trimmed_text_witness :
  emit_parsed xml_bridge (_make_base_chunk_like (chunk_with "x"))
    (parse_block "<|channel|>final<|message|> Hello <|channel|>final<|message|> world")
  = text_chunks (chunk_with "x")
      (final_text "<|channel|>final<|message|> Hello <|channel|>final<|message|> world")
  /\ _flush_harmony_buffer xml_bridge
       "<|channel|>final<|message|> Hello <|channel|>final<|message|> world"
     = text_chunks []
         (final_text "<|channel|>final<|message|> Hello <|channel|>final<|message|> world").
Proof.
  apply (final_block_renders_trimmed_text xml_bridge
           "<|channel|>final<|message|> Hello <|channel|>final<|message|> world"
           (chunk_with "x")).
  vm_compute. reflexivity.
Defined.



End Runs.

(** ** The XML escape *)

Module EscFacts.
Import Spec PyStrFacts MarkerFacts XMLFormatter More.

Lemma subst_chars_append (f : ascii -> string) (a b : string) :
  subst_chars f (a ++ b) = subst_chars f a ++ subst_chars f b.
Proof.
  induction a as [|c a IH]; [reflexivity|].
  simpl. now rewrite IH, append_assoc.
Qed.

Lemma subst_chars_compose (f g : ascii -> string) (s : string) :
  subst_chars g (subst_chars f s) = subst_chars (fun c => subst_chars g (f c)) s.
Proof.
  induction s as [|c s IH]; [reflexivity|].
  simpl. now rewrite subst_chars_append, IH.
Qed.

Lemma subst_chars_ext (f g : ascii -> string) (s : string) :
  (forall c, f c = g c) -> subst_chars f s = subst_chars g s.
Proof.
  intros H. induction s as [|c s IH]; [reflexivity|].
  simpl. now rewrite H, IH.
Qed.

(** Replacing a one-character text works character by character. *)
Lemma replace_one_char (c : ascii) (new s : string) :
  replace (String c "") new s
  = subst_chars (fun x => if Ascii.eqb x c then new else String x "") s.
Proof.
  unfold replace. induction s as [|x s IH]; [reflexivity|].
  cbn [replace_from subst_chars]. rewrite prefix_cons, prefix_nil.
  destruct (ascii_dec c x) as [->|N].
  - rewrite Ascii.eqb_refl. simpl. now rewrite IH.
  - assert (E : Ascii.eqb x c = false)
      by (apply Ascii.eqb_neq; congruence).
    rewrite E. simpl. now rewrite IH.
Qed.

(** The five replacements of [_esc], one after the other, amount to one
    pass that replaces each character on its own. *)
Lemma esc_charwise (s : string) : _esc s = subst_chars esc_char s.
Proof.
  unfold _esc. rewrite !replace_one_char, !subst_chars_compose.
  apply subst_chars_ext. intros c.
  destruct c as [b0 b1 b2 b3 b4 b5 b6 b7].
  destruct b0, b1, b2, b3, b4, b5, b6, b7; reflexivity.
Qed.

Lemma has_char_append (c : ascii) (a b : string) :
  has_char c (a ++ b) = has_char c a || has_char c b.
Proof.
  induction a as [|x a IH]; [reflexivity|].
  simpl. now rewrite IH, orb_assoc.
Qed.

Lemma esc_char_masks (c : ascii) :
  has_char "<" (esc_char c) = false /\ has_char ">" (esc_char c) = false
  /\ has_char (ascii_of_nat 34) (esc_char c) = false
  /\ has_char "'" (esc_char c) = false.
Proof.
  destruct c as [b0 b1 b2 b3 b4 b5 b6 b7].
  destruct b0, b1, b2, b3, b4, b5, b6, b7; repeat split; reflexivity.
Qed.

(** X1. The escaped text holds none of the characters [<], [>], the double
    quote and the apostrophe, whatever the text was. *)
Theorem esc_masks_metacharacters (s : string) :
  has_char "<" (_esc s) = false /\ has_char ">" (_esc s) = false
  /\ has_char (ascii_of_nat 34) (_esc s) = false
  /\ has_char "'" (_esc s) = false.
Proof.
  rewrite esc_charwise. induction s as [|c s IH]; [repeat split|].
  simpl. rewrite !has_char_append.
  destruct (esc_char_masks c) as (A & B & C & D).
  destruct IH as (A' & B' & C' & D').
  now rewrite A, B, C, D, A', B', C', D'.
Qed.

Lemma esc_char_cases (c : ascii) :
  (c = "&"%char /\ esc_char c = "&amp;")
  \/ (c = "<"%char /\ esc_char c = "&lt;")
  \/ (c = ">"%char /\ esc_char c = "&gt;")
  \/ (c = ascii_of_nat 34 /\ esc_char c = "&quot;")
  \/ (c = "'"%char /\ esc_char c = "&apos;")
  \/ (c <> "&"%char /\ esc_char c = String c "").
Proof.
  unfold esc_char.
  destruct (Ascii.eqb_spec c "&") as [->|N1]; [now left|].
  destruct (Ascii.eqb_spec c "<") as [->|N2]; [now right; left|].
  destruct (Ascii.eqb_spec c ">") as [->|N3]; [now right; right; left|].
  destruct (Ascii.eqb_spec c (ascii_of_nat 34)) as [->|N4];
    [now right; right; right; left|].
  destruct (Ascii.eqb_spec c "'") as [->|N5];
    [now right; right; right; right; left|].
  now right; right; right; right; right.
Qed.

(** No replacement text begins another one. *)
Lemma esc_char_prefix_free (c c' : ascii) (x y : string) :
  esc_char c ++ x = esc_char c' ++ y -> c = c' /\ x = y.
Proof.
  destruct (esc_char_cases c) as [[-> E]|[[-> E]|[[-> E]|[[-> E]|[[-> E]|[N E]]]]]];
  destruct (esc_char_cases c')
    as [[-> E']|[[-> E']|[[-> E']|[[-> E']|[[-> E']|[N' E']]]]]];
  rewrite ?E, ?E'; simpl; intros H;
  try discriminate H;
  try (injection H as H; subst; split; reflexivity);
  try (injection H as H1 H2; subst; contradiction).
Qed.

(** X2. [_esc] loses nothing: two texts with the same escaped form are the
    same text. *)
Theorem esc_injective (s t : string) : _esc s = _esc t -> s = t.
Proof.
  rewrite !esc_charwise. revert t.
  induction s as [|c s IH]; intros [|c' t] H; simpl in H.
  - reflexivity.
  - destruct (esc_char_cases c')
      as [[_ E]|[[_ E]|[[_ E]|[[_ E]|[[_ E]|[_ E]]]]]];
      rewrite E in H; discriminate H.
  - destruct (esc_char_cases c)
      as [[_ E]|[[_ E]|[[_ E]|[[_ E]|[[_ E]|[_ E]]]]]];
      rewrite E in H; discriminate H.
  - apply esc_char_prefix_free in H as [-> H]. f_equal. now apply IH.
Qed.

(** X3. A text without any of the five characters [&], [<], [>], double
    quote and apostrophe is left as it is. *)
Theorem esc_plain_text_unchanged (s : string) : plain_text s -> _esc s = s.
Proof.
  rewrite esc_charwise. unfold plain_text.
  induction s as [|c s IH]; [reflexivity|].
  simpl. intros (A & B & C & D & E).
  apply orb_false_elim in A as [A1 A2], B as [B1 B2], C as [C1 C2],
    D as [D1 D2], E as [E1 E2].
  unfold esc_char. rewrite A1, B1, C1, D1, E1. simpl. f_equal.
  apply IH. repeat split; assumption.
Qed.

End EscFacts.

(** ** What a block is rendered to *)

Section RenderFacts.
Context {rt : Runtime}.
Variable self : LMStudioBridge.
Import HarmonyParser XMLFormatter Spec PyStrFacts MarkerFacts Bridge More.

Lemma concat_first_char (sep x : string) (l : list string) :
  x <> "" -> first_char (String.concat sep (x :: l)) = first_char x.
Proof.
  intros H. destruct l as [|y l]; [reflexivity|].
  cbn [String.concat]. rewrite first_char_append. now destruct x.
Qed.

Lemma strip_keeps_text (s : string) (c : ascii) :
  first_char s = Some c -> isspace c = false -> strip s <> "".
Proof.
  intros F C E. apply strip_empty in E. destruct s as [|x s]; [discriminate|].
  injection F as ->. simpl in E. now rewrite C in E.
Qed.

(** The XML text of a list with a tool call in it is not blank. *)
Lemma xml_not_blank (tc : tool_call) (rest : list tool_call) :
  strip (tool_calls_to_xml (tc :: rest)) <> "".
Proof.
  apply (strip_keeps_text _ "<"); [|reflexivity].
  unfold tool_calls_to_xml, join. cbn [flat_map xml_parts app].
  now rewrite concat_first_char.
Qed.

(** X4. A parsed block gives at most one chunk. With a tool call in it, it
    gives exactly one, which carries the calls, as XML text or as a call
    list, and not the final text of the block; without one, it gives one
    chunk with the final text when there is some, and nothing otherwise. *)
Theorem parsed_block_gives_one_chunk (out_chunk : dict) (p : parsed) :
  emit_parsed self out_chunk p =
  match tool_calls p with
  | [] =>
      if String.eqb (final_message p) "" then []
      else [JDict (set_delta out_chunk [("content", JStr (final_message p))])]
  | tcs =>
      [JDict (set_delta out_chunk
                [if xml_mode self
                 then ("content", JStr (tool_calls_to_xml tcs))
                 else ("tool_calls", JList (tool_calls_to_openai tcs))])]
  end.
Proof.
  unfold emit_parsed. destruct (tool_calls p) as [|tc rest].
  - now destruct (String.eqb (final_message p) "").
  - destruct (xml_mode self).
    + pose proof (xml_not_blank tc rest) as N.
      apply String.eqb_neq in N. now rewrite N.
    + reflexivity.
Qed.

Lemma emit_parsed_shape (base_chunk : dict) (p : parsed) :
  Forall chunk_shape (emit_parsed self (_make_base_chunk_like base_chunk) p).
Proof.
  rewrite parsed_block_gives_one_chunk.
  destruct (tool_calls p) as [|tc rest].
  - destruct (String.eqb_spec (final_message p) "") as [|N]; constructor;
      [|constructor].
    do 6 eexists. split; [reflexivity|]. left. split; [reflexivity|].
    now exists (final_message p).
  - constructor; [|constructor]. destruct (xml_mode self).
    + do 6 eexists. split; [reflexivity|]. left. split; [reflexivity|].
      eexists. split; [reflexivity|].
      intros E. apply (xml_not_blank tc rest). now rewrite E.
    + do 6 eexists. split; [reflexivity|]. right. split; [reflexivity|].
      eexists. split; [reflexivity | discriminate].
Qed.

Lemma extract_shape (b : string) (base_chunk : dict) :
  Forall chunk_shape (fst (_extract_ready_blocks self b base_chunk)).
Proof.
  rewrite extract_unfold. destruct (_ <=? 1)%nat; [constructor|].
  cbn [fst]. induction (blocks_between (occurrences marker b) b);
    simpl; [constructor|].
  apply Forall_app. split; [apply emit_parsed_shape | assumption].
Qed.

Lemma flush_shape (b : string) :
  Forall chunk_shape (_flush_harmony_buffer self b).
Proof.
  unfold _flush_harmony_buffer. destruct (String.eqb (strip b) "");
    [constructor | apply emit_parsed_shape].
Qed.

Lemma map_emit_shape (l : list json) :
  Forall chunk_shape l -> Forall write_shape (map Emit l).
Proof. induction 1; simpl; constructor; assumption. Qed.

Lemma process_line_shape (st : HarmonyStreamState) (raw_line : string) :
  match process_line self st raw_line with
  | Next _ ws | Stop ws => Forall write_shape ws
  | Fail _ => True
  end.
Proof.
  unfold process_line.
  destruct (String.eqb (strip raw_line) ""); [constructor|].
  destruct (String.eqb (strip raw_line) "data: [DONE]").
  { apply Forall_app. split; [apply map_emit_shape, flush_shape|].
    repeat constructor. }
  destruct (startswith "data: " (strip raw_line)); cbn [negb]; [|constructor].
  destruct (json_loads (drop 6 (strip raw_line))) as [[| | | | | |chunk]|];
    try exact I; [|constructor].
  unfold on_chunk.
  destruct (delta_content chunk) as [content|]; [|exact I].
  destruct (if Py.truthy content then has_harmony_dyn content else Ok false)
    as [seen|]; [|exact I].
  destruct (seen || harmony_mode st); [|repeat constructor].
  destruct (append_content (buf st) content) as [b|]; [|exact I].
  pose proof (extract_shape b chunk) as S.
  destruct (_extract_ready_blocks self b chunk) as [outs b'].
  now apply map_emit_shape.
Qed.

(** X5. Every translated chunk that the stream transformer writes has the
    four chunk fields and exactly one choice, with index 0, a delta that
    holds only a non-empty content or only a non-empty call list, and no
    finish reason. *)
Theorem stream_chunks_are_well_formed (st : HarmonyStreamState)
    (ls : list string) (fails : bool) :
  Forall write_shape (fst (stream_loop self st ls fails)).
Proof.
  revert st. induction ls as [|l ls IH]; intros st; simpl; [constructor|].
  pose proof (process_line_shape st l) as P.
  destruct (process_line self st l) as [st' ws|ws|e]; simpl;
    [|assumption | constructor].
  specialize (IH st').
  destruct (stream_loop self st' ls fails) as [ws' e]; simpl in *.
  apply Forall_app. now split.
Qed.

Lemma concat_app_nonempty (sep : string) (x y : string) (a b : list string) :
  String.concat sep ((x :: a) ++ y :: b)
  = String.concat sep (x :: a) ++ sep ++ String.concat sep (y :: b).
Proof.
  revert x. induction a as [|z a IH]; intros x; [reflexivity|].
  cbn [app String.concat] in *. rewrite IH.
  now rewrite !append_assoc.
Qed.

(** X6. The XML text of a list of tool calls is the XML texts of its parts,
    joined by a line feed. *)
Theorem xml_of_appended_calls (x y : tool_call) (a b : list tool_call) :
  tool_calls_to_xml ((x :: a) ++ y :: b)
  = tool_calls_to_xml (x :: a) ++ nl ++ tool_calls_to_xml (y :: b).
Proof.
  unfold tool_calls_to_xml, join. rewrite flat_map_app.
  cbn [flat_map]. unfold xml_parts at 1 3 4. cbn [app].
  apply concat_app_nonempty.
Qed.

Lemma call_entries_nth (tcs : list tool_call) (i k : nat) :
  nth_error (call_entries k tcs) i
  = option_map (call_entry (k + i)) (nth_error tcs i).
Proof.
  revert i k. induction tcs as [|tc tcs IH]; intros i k.
  - now destruct i.
  - destruct i as [|i]; simpl.
    + now rewrite Nat.add_0_r.
    + rewrite IH. now rewrite Nat.add_succ_r.
Qed.

(** X7. The call list has one entry for each tool call, in the order of the
    calls: entry [i] names the tool of call [i], carries its arguments as
    text, and is numbered [i] in its identifier. *)
Theorem call_list_follows_calls (tcs : list tool_call) (i : nat) :
  nth_error (tool_calls_to_openai tcs) i
  = option_map (call_entry i) (nth_error tcs i)
  /\ List.length (tool_calls_to_openai tcs) = List.length tcs.
Proof.
  split; [apply (call_entries_nth tcs i 0)|].
  unfold tool_calls_to_openai. generalize 0.
  induction tcs as [|tc tcs IH]; intros k; simpl; [reflexivity|].
  now rewrite IH.
Qed.

End RenderFacts.

(** ** The pending buffer *)

Section BufferFacts.
Context {rt : Runtime}.
Variable self : LMStudioBridge.
Import Re HarmonyParser XMLFormatter Spec PyStrFacts MarkerFacts Bridge More.

Lemma occurrences_pieces (b : string) :
  occurrences marker b = starts (length (fst (chop b))) (snd (chop b)).
Proof.
  now rewrite <- find_all_occurrences, find_all_offsets, chop_offsets.
Qed.

Lemma concat_snoc (l : list string) (x : string) :
  String.concat "" (l ++ [x]) = String.concat "" l ++ x.
Proof.
  induction l as [|y l IH]; [reflexivity|].
  cbn [app]. rewrite !concat_empty_sep_cons, IH. now rewrite append_assoc.
Qed.

Lemma starts_hd (p : nat) (t : list string) :
  t <> [] -> hd 0 (starts p t) = p.
Proof. now destruct t. Qed.

(** X8. When the extraction step finds complete blocks, the blocks it
    processes followed by the text it keeps are the buffer from its first
    marker on: nothing after the first marker is lost or repeated, and what
    stood before the first marker is discarded. *)
Theorem extract_splits_text_after_first_marker (b : string)
    (base_chunk : dict) :
  2 <= List.length (occurrences marker b) ->
  String.concat "" (blocks_between (occurrences marker b) b)
  ++ snd (_extract_ready_blocks self b base_chunk)
  = drop (hd 0 (occurrences marker b)) b.
Proof.
  intros L. rewrite extract_pieces, occurrences_pieces in *.
  rewrite starts_length in L.
  pose proof (chop_text b) as T.
  destruct (chop b) as [h t]; cbn [fst snd] in *.
  assert (N : t <> []) by (intros ->; simpl in L; lia).
  apply Nat.leb_gt in L. rewrite L. cbn [snd].
  rewrite starts_hd by assumption.
  rewrite T at 1 2. rewrite pieces_between, drop_length_append.
  rewrite <- concat_snoc. now rewrite <- app_removelast_last.
Qed.

Lemma kept_text_pieces (b : string) :
  1 < List.length (snd (chop b)) ->
  snd (chop (last (snd (chop b)) "")) = [last (snd (chop b)) ""].
Proof.
  intros L.
  assert (N : snd (chop b) <> []) by (intros E; rewrite E in L; simpl in L; lia).
  destruct (chop_append b "" N) as (A & _ & _).
  rewrite !append_nil_r in A.
  apply (f_equal snd) in A. cbn [snd] in A.
  rewrite (app_removelast_last "" N) in A at 1.
  now apply app_inv_head in A.
Qed.

Lemma kept_text_occurrences (b : string) (base_chunk : dict) :
  List.length (occurrences marker (snd (_extract_ready_blocks self b base_chunk)))
  <= 1.
Proof.
  rewrite extract_pieces.
  destruct (List.length (snd (chop b)) <=? 1)%nat eqn:L; cbn [snd].
  - apply Nat.leb_le in L. now rewrite occurrences_pieces, starts_length.
  - apply Nat.leb_gt in L.
    rewrite occurrences_pieces, starts_length, kept_text_pieces by assumption.
    simpl. lia.
Qed.

(** X9. The text that the extraction step keeps holds at most one
    channel marker, so a second extraction on it emits nothing and keeps
    it as it is. *)
Theorem extract_leaves_one_marker (b : string) (base_chunk base_chunk' : dict) :
  List.length
    (occurrences marker (snd (_extract_ready_blocks self b base_chunk))) <= 1
  /\ _extract_ready_blocks self
       (snd (_extract_ready_blocks self b base_chunk)) base_chunk'
     = ([], snd (_extract_ready_blocks self b base_chunk)).
Proof.
  pose proof (kept_text_occurrences b base_chunk) as L.
  split; [exact L|].
  rewrite (extract_unfold self (snd _)).
  apply Nat.leb_le in L. now rewrite L.
Qed.

Lemma process_line_state (st st' : HarmonyStreamState) (raw_line : string)
    (ws : list client_write) :
  process_line self st raw_line = Next st' ws ->
  st' = st
  \/ exists b chunk,
       st' = {| harmony_mode := true;
                buf := snd (_extract_ready_blocks self b chunk) |}.
Proof.
  unfold process_line.
  destruct (String.eqb (strip raw_line) ""); [intros [= <- _]; now left|].
  destruct (String.eqb (strip raw_line) "data: [DONE]"); [discriminate|].
  destruct (startswith "data: " (strip raw_line)); cbn [negb];
    [|intros [= <- _]; now left].
  destruct (json_loads (drop 6 (strip raw_line))) as [[| | | | | |chunk]|];
    try discriminate; [|intros [= <- _]; now left].
  unfold on_chunk.
  destruct (delta_content chunk) as [content|]; [|discriminate].
  destruct (if Py.truthy content then has_harmony_dyn content else Ok false)
    as [seen|]; [|discriminate].
  destruct (seen || harmony_mode st); [|intros [= <- _]; now left].
  destruct (append_content (buf st) content) as [b|]; [|discriminate].
  destruct (_extract_ready_blocks self b chunk) as [outs b'] eqn:E.
  intros [= <- _]. right. exists b, chunk. now rewrite E.
Qed.

(** X10. Whatever the upstream sends, the connection state keeps two
    invariants: in pass-through mode the pending buffer is empty, and the
    pending buffer never holds more than one channel marker once an
    iteration is over. *)
Theorem reachable_state_invariant (st : HarmonyStreamState) :
  reachable self st ->
  (harmony_mode st = false -> buf st = "")
  /\ List.length (occurrences marker (buf st)) <= 1.
Proof.
  induction 1 as [|st raw_line st' ws R IH P].
  - split; [reflexivity | simpl; lia].
  - apply process_line_state in P as [->|(b & chunk & ->)]; [exact IH|].
    split; [discriminate | apply kept_text_occurrences].
Qed.

Lemma process_plain_line (st : HarmonyStreamState) (raw_line : string) :
  harmony_mode st = false -> plain_line raw_line ->
  process_line self st raw_line = Next st [Relay (strip raw_line)].
Proof.
  intros H (chunk & content & D & C & P).
  rewrite (process_data_line self st raw_line chunk D).
  unfold on_chunk. rewrite C, H.
  destruct P as [F | (c & -> & N)].
  - now rewrite F.
  - rewrite has_harmony_dyn_str, N. now destruct (Py.truthy (JStr c)).
Qed.

(** X11. On a connection in pass-through mode, a run of data lines whose
    contents hold no Harmony token is relayed line by line, each line
    stripped of surrounding whitespace, in the order of arrival, and
    nothing else is written. *)
Theorem plain_lines_are_relayed (st : HarmonyStreamState) (ls : list string)
    (fails : bool) :
  harmony_mode st = false ->
  Forall plain_line ls ->
  stream_loop self st ls fails
  = (map (fun l => Relay (strip l)) ls,
     if fails then Errored ClientError else UpstreamEnded).
Proof.
  intros H F. induction F as [|l ls P F IH]; [reflexivity|].
  cbn [stream_loop map]. rewrite (process_plain_line st l H P), IH.
  reflexivity.
Qed.

Lemma process_ignored_line (st : HarmonyStreamState) (raw_line : string) :
  ignored_line raw_line -> process_line self st raw_line = Next st [].
Proof.
  unfold process_line. intros [E | (D & [S | J])].
  - now rewrite E.
  - destruct (String.eqb (strip raw_line) ""); [reflexivity|].
    apply String.eqb_neq in D. now rewrite D, S.
  - destruct (String.eqb (strip raw_line) ""); [reflexivity|].
    apply String.eqb_neq in D. rewrite D, J.
    now destruct (startswith "data: " (strip raw_line)).
Qed.

(** X12. A blank line, a line without the [data: ] prefix and a data line
    whose text does not decode leave no trace: the output of the stream is
    the same with such a line and without it, wherever it stands. *)
Theorem ignored_lines_leave_no_trace (st : HarmonyStreamState)
    (pre post : list string) (raw_line : string) (fails : bool) :
  ignored_line raw_line ->
  stream_loop self st (pre ++ raw_line :: post) fails
  = stream_loop self st (pre ++ post) fails.
Proof.
  intros I. revert st. induction pre as [|l pre IH]; intros st.
  - cbn [app stream_loop]. rewrite (process_ignored_line st raw_line I).
    now destruct (stream_loop self st post fails).
  - cbn [app stream_loop].
    destruct (process_line self st l) as [st' ws|ws|e]; try reflexivity.
    now rewrite IH.
Qed.

Lemma contains_cons (sub : string) (c : ascii) (s : string) :
  contains sub (String c s) = false ->
  prefix sub (String c s) = false /\ contains sub s = false.
Proof. cbn [contains]. apply orb_false_elim. Qed.

Lemma no_marker_no_segments (s : string) (k : nat) :
  contains marker s = false -> finditer_from CHANNEL_PATTERN s k = [].
Proof.
  revert k. induction s as [|c s IH]; intros k H; cbn [finditer_from].
  - destruct k; [|reflexivity]. now rewrite match_needs_marker.
  - apply contains_cons in H as [P C].
    destruct k; [|now apply IH].
    rewrite match_needs_marker by exact P. now apply IH.
Qed.

(** X13. A text without a channel marker holds no segment: it parses to
    the empty result, and flushing it at the end of the stream writes
    nothing, whatever else it holds. *)
Theorem text_without_marker_is_dropped (b : string) :
  contains "<|channel|>" b = false ->
  parse_block b = empty_result /\ _flush_harmony_buffer self b = [].
Proof.
  intros H.
  assert (E : parse_block b = empty_result).
  { unfold parse_block, finditer. now rewrite (no_marker_no_segments b 0 H). }
  split; [exact E|].
  unfold _flush_harmony_buffer. rewrite E.
  now destruct (String.eqb (strip b) "").
Qed.

End BufferFacts.

(** ** The fields of a parsed block *)

Section FieldFacts.
Context {rt : Runtime}.
Import Re HarmonyParser Spec PyStrFacts More.

Lemma flat_map_filter {A B : Type} (p : A -> bool) (f : A -> B) (l : list A) :
  flat_map (fun a => if p a then [f a] else []) l = map f (filter p l).
Proof.
  induction l as [|a l IH]; [reflexivity|].
  simpl. rewrite IH. now destruct (p a).
Qed.

Lemma final_parts_filter (ms : list captures) :
  String.concat "" (map final_part ms)
  = String.concat "" (map content_of (filter is_final ms)).
Proof.
  induction ms as [|m ms IH]; [reflexivity|].
  cbn [map filter]. rewrite concat_empty_sep_cons, IH. unfold final_part.
  destruct (is_final m); [|reflexivity].
  cbn [map]. now rewrite concat_empty_sep_cons.
Qed.

(** X14. The parser sorts the segments of a block by channel and keeps
    their order: the final text is the contents of the final segments one
    after the other, the analysis notes are the contents of the analysis
    segments, the commentary notes those of the commentary segments without
    a recipient; segments on any other channel leave no trace. *)
Theorem parse_block_sorts_segments (block : string) :
  final_message (parse_block block)
    = String.concat "" (map content_of (filter is_final (segments block)))
  /\ analysis (parse_block block)
     = map content_of (filter is_analysis (segments block))
  /\ commentary (parse_block block)
     = map content_of (filter is_note (segments block)).
Proof.
  rewrite parse_block_parts. cbn [final_message analysis commentary].
  split; [apply final_parts_filter|]. split.
  - rewrite <- flat_map_filter. apply flat_map_ext. intros m.
    unfold analysis_part, is_analysis, is_final.
    destruct (String.eqb_spec (channel_of m) "final") as [E|_];
      [now rewrite E | reflexivity].
  - rewrite <- flat_map_filter. apply flat_map_ext. intros m.
    unfold commentary_part, is_note, is_final.
    destruct (String.eqb_spec (channel_of m) "final") as [E|_];
      [now rewrite E|].
    destruct (String.eqb_spec (channel_of m) "analysis") as [E|_];
      [now rewrite E | reflexivity].
Qed.

End FieldFacts.

(** ** The whole-body transformer and the shape of chunks *)

Section BodyFacts.
Context {rt : Runtime}.
Variable self : LMStudioBridge.
Import HarmonyParser XMLFormatter Spec PyStrFacts Bridge More.

Lemma dict_get_set_other (d : dict) (k k' : string) (v : json) :
  k' <> k -> Py.dict_get (Py.dict_set d k v) k' = Py.dict_get d k'.
Proof.
  intros N. induction d as [|[x w] d IH]; simpl.
  - apply String.eqb_neq in N. now rewrite String.eqb_sym, N.
  - destruct (String.eqb_spec x k) as [->|Nx]; simpl.
    + apply String.eqb_neq in N. now rewrite String.eqb_sym, N.
    + destruct (String.eqb x k'); [reflexivity | exact IH].
Qed.


Lemma has_harmony_or_else (raw : string) :
  has_harmony raw = false ->
  has_harmony_dyn (Py.or_else (JStr raw) (JStr "")) = Ok false.
Proof.
  intros H. unfold Py.or_else. destruct (Py.truthy (JStr raw));
    rewrite has_harmony_dyn_str; [now rewrite H | reflexivity].
Qed.

(** X16. A whole body whose message content is a text without any Harmony
    token is answered as it came, with status 200. *)
Theorem plain_body_is_unchanged (t : string) (data : json) (raw : string) :
  message_text data = Some raw ->
  has_harmony raw = false ->
  _nonstream_transform self {| text := t; decoded := Some data |}
  = JsonResponse 200 data.
Proof.
  intros M H. unfold _nonstream_transform. cbn [decoded].
  assert (E : transform_data self data = Ok data); [|now rewrite E].
  unfold message_text in M.
  destruct data as [| | | | | |d]; try discriminate.
  destruct (Py.dict_get d "choices") as [[| | | | |[|[| | | | | |choice] rest]|]|]
    eqn:C; try discriminate.
  destruct (Py.dict_get choice "message") as [[| | | | | |m]|] eqn:Mg;
    try discriminate.
  destruct (Py.dict_get m "content") as [[| | | |raw'| |]|] eqn:Cg;
    try discriminate.
  injection M as ->.
  unfold transform_data. cbn [Py.get bind]. unfold Py.dict_get_default.
  rewrite C. cbn [Py.or_else Py.truthy Py.item0 bind Py.get].
  unfold Py.dict_get_default. rewrite Mg.
  assert (Tm : Py.truthy (JDict m) = true)
    by (destruct m; [discriminate Cg | reflexivity]).
  assert (Om : Py.or_else (JDict m) (JDict []) = JDict m)
    by (unfold Py.or_else; now rewrite Tm).
  rewrite !Om. cbn [Py.get bind].
  unfold Py.dict_get_default. rewrite Cg.
  now rewrite (has_harmony_or_else raw H).
Qed.

Lemma transform_data_result (data data' : json) :
  transform_data self data = Ok data' ->
  data' = data
  \/ exists d v, data = JDict d /\ data' = JDict (Py.dict_set d "choices" v).
Proof.
  unfold transform_data, bind. intros H.
  repeat split_match H; injection H as <-;
    solve [now left | right; eauto].
Qed.

(** X17. The whole-body transformer rewrites the [choices] of a body and
    nothing else: every other field of the answer is the field of the
    upstream body. *)
Theorem transform_keeps_other_fields (d d' : dict) (k : string) :
  transform_data self (JDict d) = Ok (JDict d') ->
  k <> "choices" ->
  Py.dict_get d' k = Py.dict_get d k.
Proof.
  intros H N. apply transform_data_result in H as [[= ->]|(d0 & v & E & E')].
  - reflexivity.
  - injection E as <-. injection E' as ->. now apply dict_get_set_other.
Qed.

End BodyFacts.

(** ** Construction of the bridge *)

Module SetupFacts.
Import Spec PyStrFacts More Setup.

Lemma lstrip_slashes (s : string) :
  exists u, s = u ++ lstrip_chars "/" s /\ only_slashes u = true
            /\ first_char (lstrip_chars "/" s) <> Some "/"%char.
Proof.
  induction s as [|c s (u & E & O & F)].
  - exists "". repeat split. discriminate.
  - cbn [lstrip_chars]. change (contains (String c "") "/")
      with (prefix (String c "") "/" || false).
    rewrite MarkerFacts.prefix_cons. destruct (ascii_dec c "/") as [->|N].
    + exists (String "/" u). simpl. rewrite <- E. repeat split; assumption.
    + exists "". repeat split. simpl. congruence.
Qed.

Lemma only_slashes_append (a b : string) :
  only_slashes (a ++ b) = only_slashes a && only_slashes b.
Proof.
  induction a as [|c a IH]; [reflexivity|].
  simpl. now rewrite IH, andb_assoc.
Qed.

Lemma only_slashes_rev (s : string) : only_slashes (rev s) = only_slashes s.
Proof.
  induction s as [|c s IH]; [reflexivity|].
  simpl. rewrite only_slashes_append, IH. simpl.
  now rewrite andb_true_r, andb_comm.
Qed.

Lemma lstrip_chars_fixed (s : string) :
  first_char s <> Some "/"%char -> lstrip_chars "/" s = s.
Proof.
  destruct s as [|c s]; [reflexivity|]. intros F.
  cbn [lstrip_chars]. change (contains (String c "") "/")
    with (prefix (String c "") "/" || false).
  rewrite MarkerFacts.prefix_cons.
  destruct (ascii_dec c "/") as [->|N]; [now destruct F | reflexivity].
Qed.

(** X18. The bridge stores the upstream address without its trailing
    slashes, and nothing else of it is changed: the stored address does not
    end in a slash, the given address is the stored one followed by
    slashes only, and constructing a bridge from a stored address stores
    it again. The request counter starts at 0. *)
Theorem init_strips_trailing_slashes (url : string) (p : Z) (mode : bool) :
  (exists tail,
      url = lm_studio_url (__init__ url p mode) ++ tail
      /\ only_slashes tail = true)
  /\ last_char (lm_studio_url (__init__ url p mode)) <> Some "/"%char
  /\ __init__ (lm_studio_url (__init__ url p mode)) p mode
     = __init__ url p mode
  /\ req_id (__init__ url p mode) = 0.
Proof.
  cbn [__init__ lm_studio_url req_id]. unfold rstrip_chars.
  destruct (lstrip_slashes (rev url)) as (u & E & O & F).
  split; [|split; [|split]].
  - exists (rev u). split; [|now rewrite only_slashes_rev].
    rewrite <- rev_append, <- E. now rewrite rev_involutive.
  - now rewrite last_char_rev, rev_involutive.
  - unfold __init__, rstrip_chars. f_equal.
    rewrite rev_involutive. now rewrite lstrip_chars_fixed.
  - reflexivity.
Qed.

End SetupFacts.

(** ** Further runs on sample inputs *)

Section MoreRuns.
Import RefRuntime HarmonyParser XMLFormatter Spec Bridge Samples More.

Lemma esc_injective_witness :
  _esc "a<b & c" = _esc "a<b & c" /\ "a<b & c" = "a<b & c".
Proof.
  split; [reflexivity|].
  apply (EscFacts.esc_injective "a<b & c" "a<b & c"). reflexivity.
Defined.

Lemma esc_plain_text_unchanged_witness :
  plain_text "ls -la /tmp" /\ _esc "ls -la /tmp" = "ls -la /tmp".
Proof.
  split; [repeat split|].
  apply (EscFacts.esc_plain_text_unchanged "ls -la /tmp"). repeat split.
Defined.

Lemma extract_splits_text_after_first_marker_witness :
  String.concat ""
    (blocks_between
       (occurrences marker
          "lost<|channel|>analysis<|message|>a<|channel|>final<|message|>b")
       "lost<|channel|>analysis<|message|>a<|channel|>final<|message|>b")
  ++ snd (_extract_ready_blocks xml_bridge
            "lost<|channel|>analysis<|message|>a<|channel|>final<|message|>b"
            (chunk_with ""))
  = drop (hd 0 (occurrences marker
                  "lost<|channel|>analysis<|message|>a<|channel|>final<|message|>b"))
      "lost<|channel|>analysis<|message|>a<|channel|>final<|message|>b".
Proof.
  apply (extract_splits_text_after_first_marker xml_bridge
           "lost<|channel|>analysis<|message|>a<|channel|>final<|message|>b"
           (chunk_with "")).
  vm_compute. lia.
Defined.

Lemma reachable_state_invariant_witness :
  (harmony_mode {| harmony_mode := true;
                   buf := "<|channel|>final<|message|>hi" |} = false ->
   buf {| harmony_mode := true; buf := "<|channel|>final<|message|>hi" |} = "")
  /\ List.length
       (occurrences marker
          (buf {| harmony_mode := true;
                  buf := "<|channel|>final<|message|>hi" |})) <= 1.
Proof.
  apply (reachable_state_invariant xml_bridge
           {| harmony_mode := true; buf := "<|channel|>final<|message|>hi" |}).
  apply (reach_step xml_bridge new_state
           (fragment "<|channel|>final<|message|>hi") _ []).
  - apply reach_new.
  - vm_compute. reflexivity.
Defined.

Lemma plain_lines_are_relayed_witness :
  stream_loop xml_bridge new_state [fragment "Hello"; fragment ""] true
  = (map (fun l => Relay (strip l)) [fragment "Hello"; fragment ""],
     Errored ClientError).
Proof.
  apply (plain_lines_are_relayed xml_bridge new_state
           [fragment "Hello"; fragment ""] true); [reflexivity|].
  repeat constructor.
  - exists (chunk_with "Hello"), (JStr "Hello").
    split; [|split; [vm_compute; reflexivity|]].
    + repeat split; try (vm_compute; reflexivity); vm_compute; discriminate.
    + right. exists "Hello". split; vm_compute; reflexivity.
  - exists (chunk_with ""), (JStr "").
    split; [|split; [vm_compute; reflexivity|]].
    + repeat split; try (vm_compute; reflexivity); vm_compute; discriminate.
    + left. reflexivity.
Defined.

Lemma ignored_lines_leave_no_trace_witness :
  stream_loop xml_bridge new_state
    ([fragment "a"] ++ ": keep-alive" :: [fragment "b"; done_line]) false
  = stream_loop xml_bridge new_state
      ([fragment "a"] ++ [fragment "b"; done_line]) false.
Proof.
  apply (ignored_lines_leave_no_trace xml_bridge new_state [fragment "a"]
           [fragment "b"; done_line] ": keep-alive" false).
  right. split; [vm_compute; discriminate|]. left. vm_compute. reflexivity.
Defined.

Lemma text_without_marker_is_dropped_witness :
  parse_block "nel|>final<|message|>the answer" = empty_result
  /\ _flush_harmony_buffer xml_bridge "nel|>final<|message|>the answer" = [].
Proof.
  apply (text_without_marker_is_dropped xml_bridge
           "nel|>final<|message|>the answer").
  vm_compute. reflexivity.
Defined.


Lemma plain_body_is_unchanged_witness :
  _nonstream_transform xml_bridge (json_body (completion (JStr "Hello")))
  = JsonResponse 200 (completion (JStr "Hello")).
Proof.
  apply (plain_body_is_unchanged xml_bridge
           (dumps (completion (JStr "Hello"))) (completion (JStr "Hello"))
           "Hello"); vm_compute; reflexivity.
Defined.

Lemma transform_keeps_other_fields_witness :
  Py.dict_get
    [("id", JStr "cmpl-1");
     ("choices",
      JList [JDict [("index", JInt 0);
                    ("message", JDict [("content", JStr "hi")]);
                    ("finish_reason", JStr "stop")]])]
    "id"
  = Py.dict_get
      [("id", JStr "cmpl-1");
       ("choices",
        JList [JDict [("index", JInt 0);
                      ("message",
                       JDict [("content",
                               JStr "<|channel|>final<|message|>hi")])]])]
      "id".
Proof.
  apply (transform_keeps_other_fields xml_bridge
           [("id", JStr "cmpl-1");
            ("choices",
             JList [JDict [("index", JInt 0);
                           ("message",
                            JDict [("content",
                                    JStr "<|channel|>final<|message|>hi")])]])]
           _ "id").
  - vm_compute. reflexivity.
  - discriminate.
Defined.

End MoreRuns.

(** ** Matching a text that a channel marker follows *)

Section FollowedFacts.
Import Re HarmonyParser Spec PyStrFacts MarkerFacts More.
Variable rest : string.
Hypothesis rest_marked : rest = "" \/ prefix marker rest = true.

Lemma lift_orelse (a b : option (string * captures)) :
  lift rest (orelse a b) = orelse (lift rest a) (lift rest b).
Proof. now destruct a as [[s c]|]. Qed.

Lemma drop_append_short (n : nat) (u r : string) :
  n <= length u -> drop n (u ++ r) = drop n u ++ r.
Proof.
  revert u. induction n as [|n IH]; intros u H; [reflexivity|].
  destruct u as [|c u]; [simpl in H; lia|].
  apply IH. simpl in H. lia.
Qed.

Lemma take_append_short (n : nat) (u r : string) :
  n <= length u -> take n (u ++ r) = take n u.
Proof.
  revert u. induction n as [|n IH]; intros u H; [reflexivity|].
  destruct u as [|c u]; [simpl in H; lia|].
  simpl. f_equal. apply IH. simpl in H. lia.
Qed.

Lemma prefix_too_long (p u : string) :
  length u < length p -> prefix p u = false.
Proof.
  revert u. induction p as [|a p IH]; intros u H; [simpl in H; lia|].
  destruct u as [|b u]; [reflexivity|].
  rewrite prefix_cons. destruct (ascii_dec a b); [|reflexivity].
  apply IH. simpl in H. lia.
Qed.

Lemma rest_head : rest = "" \/ exists r, rest = String "<" r.
Proof.
  destruct rest_marked as [E|P]; [now left|].
  right. apply prefix_split in P. rewrite P. now eexists.
Qed.

Lemma clash_prefix (p q r : string) :
  clash p q = true -> prefix p (q ++ r) = false.
Proof.
  revert q. induction p as [|a p IH]; intros [|b q] H; try discriminate.
  simpl in H. cbn [append]. rewrite prefix_cons.
  destruct (ascii_dec a b) as [->|N]; [|reflexivity].
  rewrite Ascii.eqb_refl in H. now apply IH.
Qed.

Lemma no_lt_no_overrun (p u : string) :
  has_char "<" p = false -> length u < length p ->
  prefix p (u ++ rest) = false.
Proof.
  revert p. induction u as [|b u IH]; intros [|a p] H L;
    try (simpl in L; lia).
  - cbn [append]. destruct rest_head as [->|[r ->]]; [reflexivity|].
    rewrite prefix_cons. destruct (ascii_dec a "<") as [->|]; [|reflexivity].
    discriminate H.
  - cbn [append]. rewrite prefix_cons.
    destruct (ascii_dec a b); [|reflexivity].
    simpl in H. apply orb_false_elim in H as [_ H].
    apply IH; [exact H | simpl in L; lia].
Qed.

Lemma lit_safe_overrun (p u : string) :
  lit_safe p = true -> length u < length p -> prefix p (u ++ rest) = false.
Proof.
  destruct p as [|a p]; [discriminate|]. cbn [lit_safe].
  intros H L. apply andb_prop in H as [H1 H2].
  apply negb_true_iff in H1.
  destruct u as [|b u].
  - cbn [append]. destruct rest_marked as [->|P]; [reflexivity|].
    rewrite (prefix_split _ _ P). now apply clash_prefix.
  - cbn [append]. rewrite prefix_cons.
    destruct (ascii_dec a b); [|reflexivity].
    apply no_lt_no_overrun; [exact H1 | simpl in L; lia].
Qed.

Lemma closed_drop (D : string -> Prop) (n : nat) (u : string) :
  (forall a v, D (String a v) -> D v) -> D u -> D (drop n u).
Proof.
  intros T. revert u. induction n as [|n IH]; intros u H; [now rewrite drop_0|].
  destruct u as [|a u]; [exact H|]. apply IH. now apply (T a).
Qed.

Lemma many_greedy_agree (cls : ascii -> bool) (D : string -> Prop)
    (k1 k2 : cont) :
  cls "<"%char = false ->
  (forall a v, D (String a v) -> D v) ->
  agree rest D k1 k2 ->
  forall min,
    agree rest D (fun s c => many_greedy cls min s c k1)
                 (fun s c => many_greedy cls min s c k2).
Proof.
  intros C T A min u. revert min.
  induction u as [|a u IH]; intros min c H.
  - cbn [append many_greedy].
    assert (E : many_greedy cls min rest c k2
                = if (min =? 0)%nat then k2 rest c else None).
    { destruct rest_head as [->|[r ->]]; [reflexivity|].
      cbn [many_greedy]. now rewrite C. }
    rewrite E. destruct (min =? 0)%nat; [apply (A "" c H) | reflexivity].
  - cbn [append many_greedy].
    assert (S : (if (min =? 0)%nat then k2 (String a (u ++ rest)) c else None)
                = lift rest (if (min =? 0)%nat then k1 (String a u) c else None))
      by (destruct (min =? 0)%nat; [apply (A (String a u) c H) | reflexivity]).
    rewrite S. destruct (cls a); [|reflexivity].
    rewrite (IH (pred min) c (T a u H)). now rewrite lift_orelse.
Qed.

(** A safe pattern matches a text that a channel marker follows as it
    matches the text alone. *)
Lemma run_agree (r : regex) :
  safe r = true ->
  forall (D : string -> Prop) (k1 k2 : cont),
    (forall a v, D (String a v) -> D v) ->
    agree rest D k1 k2 ->
    agree rest D (fun s c => run r s c k1) (fun s c => run r s c k2).
Proof.
  induction r as [p|greedy min cls|r1 IH1 r2 IH2|r1 IH1 r2 IH2|r1 IH1
                  |name r1 IH1|r1 IH1|]; intros S D k1 k2 T A;
    try discriminate S.
  - (* a literal *)
    intros u c H. cbn [run].
    destruct (Nat.le_gt_cases (length p) (length u)) as [L|L].
    + rewrite prefix_append_long, drop_append_short by exact L.
      destruct (prefix p u); [|reflexivity].
      apply A. now apply closed_drop.
    + rewrite (prefix_too_long p u L), (lit_safe_overrun p u S L).
      reflexivity.
  - (* a greedy repetition *)
    destruct greedy; [|discriminate S]. cbn [safe] in S.
    apply negb_true_iff in S. intros u c H. cbn [run].
    now apply (many_greedy_agree cls D k1 k2 S T A min).
  - (* a sequence *)
    cbn [safe] in S. apply andb_prop in S as [S1 S2].
    intros u c H. cbn [run].
    apply (IH1 S1 D _ _ T); [|exact H].
    apply (IH2 S2 D k1 k2 T A).
  - (* an alternative *)
    cbn [safe] in S. apply andb_prop in S as [S1 S2].
    intros u c H. cbn [run].
    rewrite (IH1 S1 D k1 k2 T A u c H), (IH2 S2 D k1 k2 T A u c H).
    now rewrite lift_orelse.
  - (* an option *)
    cbn [safe] in S. intros u c H. cbn [run].
    rewrite (IH1 S D k1 k2 T A u c H), (A u c H). now rewrite lift_orelse.
  - (* a group *)
    cbn [safe] in S. intros u c H. cbn [run].
    apply (IH1 S (fun v => D v /\ length v <= length u)).
    + intros a v [Hv Lv]. split; [now apply (T a) | simpl in Lv; lia].
    + intros v c' [Hv Lv]. rewrite (A v _ Hv).
      rewrite !length_append.
      replace (length u + length rest - (length v + length rest))
        with (length u - length v) by lia.
      now rewrite take_append_short by lia.
    + split; [exact H | lia].
Qed.

Lemma take_length (s : string) : take (length s) s = s.
Proof. induction s as [|a s IH]; [reflexivity | simpl; now rewrite IH]. Qed.

Lemma ahead_at_rest (c : captures) :
  run boundary_ahead rest c finish = Some (rest, c).
Proof.
  unfold boundary_ahead. cbn [run].
  destruct rest_marked as [E|P].
  - rewrite E. reflexivity.
  - fold marker. rewrite P. reflexivity.
Qed.

Lemma ahead_at_end (c : captures) :
  run boundary_ahead "" c finish = Some ("", c).
Proof. reflexivity. Qed.

Lemma ahead_inside (a : ascii) (u : string) (c : captures) :
  prefix marker (String a u) = false ->
  run boundary_ahead (String a u) c finish = None.
Proof.
  intros P. unfold boundary_ahead. cbn [run]. fold marker. now rewrite P.
Qed.

Lemma clear_cons (a : ascii) (u : string) :
  clear_of_marker (String a u) rest = true ->
  prefix marker (String a (u ++ rest)) = false
  /\ prefix marker (String a u) = false
  /\ clear_of_marker u rest = true.
Proof.
  cbn [clear_of_marker append]. intros H. apply andb_prop in H as [P C].
  apply negb_true_iff in P. repeat split; try assumption.
  destruct (prefix marker (String a u)) eqn:E; [|reflexivity].
  apply (prefix_append _ _ rest) in E. cbn [append] in E. congruence.
Qed.

(** The lazy content runs to the end of a text without marker, and stops
    there also when a channel marker follows. *)
Lemma lazy_content_agree (u pre : string) (c : captures) :
  clear_of_marker u rest = true ->
  many_lazy any_char 0 (u ++ rest) c (content_end (pre ++ u ++ rest))
  = lift rest (many_lazy any_char 0 u c (content_end (pre ++ u))).
Proof.
  revert pre. induction u as [|a u IH]; intros pre H.
  - cbn [append].
    assert (L : many_lazy any_char 0 rest c (content_end (pre ++ rest))
                = Some (rest, ("content", pre) :: c)).
    { assert (S : content_end (pre ++ rest) rest c
                  = Some (rest, ("content", pre) :: c)).
      { unfold content_end. rewrite ahead_at_rest, length_append.
        replace (length pre + length rest - length rest) with (length pre)
          by lia.
        now rewrite take_length_append. }
      destruct rest; cbn [many_lazy Nat.eqb]; now rewrite S. }
    rewrite L. cbn [many_lazy Nat.eqb]. unfold content_end at 1.
    rewrite ahead_at_end, append_nil_r. cbn [length]. rewrite Nat.sub_0_r.
    now rewrite take_length.
  - apply clear_cons in H as (P1 & P2 & C).
    cbn [append many_lazy Nat.eqb Nat.pred].
    unfold content_end at 1 3. rewrite (ahead_inside _ _ _ P1).
    rewrite (ahead_inside _ _ _ P2).
    change (any_char a) with true. cbv iota.
    replace (pre ++ String a (u ++ rest))
      with ((pre ++ String a "") ++ u ++ rest)
      by (now rewrite append_assoc).
    replace (pre ++ String a u) with ((pre ++ String a "") ++ u)
      by (now rewrite append_assoc).
    now apply IH.
Qed.

Lemma content_tail_agree :
  agree rest (fun u => clear_of_marker u rest = true)
    (fun s c => run content_tail s c finish)
    (fun s c => run content_tail s c finish).
Proof.
  intros u c H. unfold content_tail. cbn [run].
  apply (lazy_content_agree u "" c H).
Qed.

Lemma pattern_parts :
  CHANNEL_PATTERN
  = Seq (Lit marker)
      (Seq channel_group
         (Seq recipient_part
            (Seq constrain_part (Seq (Lit "<|message|>") content_tail)))).
Proof. reflexivity. Qed.

Lemma clear_tail (a : ascii) (v : string) :
  clear_of_marker (String a v) rest = true -> clear_of_marker v rest = true.
Proof. intros H. now apply clear_cons in H. Qed.

(** What comes after the channel marker matches alike with and without a
    channel marker after the text. *)
Lemma after_marker_agree :
  agree rest (fun u => clear_of_marker u rest = true)
    (fun s c =>
       run (Seq channel_group
              (Seq recipient_part
                 (Seq constrain_part (Seq (Lit "<|message|>") content_tail))))
         s c finish)
    (fun s c =>
       run (Seq channel_group
              (Seq recipient_part
                 (Seq constrain_part (Seq (Lit "<|message|>") content_tail))))
         s c finish).
Proof.
  pose proof content_tail_agree as A5.
  pose proof (run_agree (Lit "<|message|>") eq_refl _ _ _ clear_tail A5) as A4.
  pose proof (run_agree constrain_part eq_refl _ _ _ clear_tail A4) as A3.
  pose proof (run_agree recipient_part eq_refl _ _ _ clear_tail A3) as A2.
  pose proof (run_agree channel_group eq_refl _ _ _ clear_tail A2) as A1.
  exact A1.
Qed.

(** A piece of text that begins with a channel marker and holds no other
    one is matched alike with and without a channel marker after it. *)
Lemma match_piece (x : string) :
  prefix marker x = true ->
  clear_of_marker (drop 1 x) rest = true ->
  match_at CHANNEL_PATTERN (x ++ rest)
  = lift rest (match_at CHANNEL_PATTERN x).
Proof.
  intros P C. unfold match_at. rewrite pattern_parts.
  change (run (Seq (Lit marker) ?r) ?s ?c ?k)
    with (if prefix marker s then run r (drop (length marker) s) c k else None).
  rewrite (prefix_append _ _ rest P), P.
  assert (L : length marker <= length x).
  { rewrite (prefix_split _ _ P), length_append. lia. }
  rewrite drop_append_short by exact L.
  apply after_marker_agree.
  change (length marker) with (10 + 1).
  destruct x as [|a x]; [discriminate P|].
  replace (drop (10 + 1) (String a x)) with (drop 10 (drop 1 (String a x)))
    by reflexivity.
  apply closed_drop; [exact clear_tail | exact C].
Qed.

(** No match begins inside a text without marker. *)
Lemma scan_clear (v : string) (k : nat) :
  clear_of_marker v rest = true -> k <= length v ->
  finditer_from CHANNEL_PATTERN (v ++ rest) k
  = finditer_from CHANNEL_PATTERN rest 0
  /\ finditer_from CHANNEL_PATTERN v k = [].
Proof.
  revert k. induction v as [|a v IH]; intros k C L.
  - assert (k = 0) as -> by (simpl in L; lia). split; [reflexivity|].
    cbn [finditer_from]. now rewrite match_needs_marker.
  - apply clear_cons in C as (P1 & P2 & C).
    cbn [append finditer_from]. destruct k as [|k].
    + rewrite (match_needs_marker _ P1), (match_needs_marker _ P2).
      apply IH; [exact C | lia].
    + apply IH; [exact C | simpl in L; lia].
Qed.

Lemma finditer_piece (x : string) :
  prefix marker x = true ->
  clear_of_marker (drop 1 x) rest = true ->
  finditer_from CHANNEL_PATTERN (x ++ rest) 0
  = (finditer_from CHANNEL_PATTERN x 0
     ++ finditer_from CHANNEL_PATTERN rest 0)%list
  /\ List.length (finditer_from CHANNEL_PATTERN x 0) <= 1.
Proof.
  intros P C. pose proof (match_piece x P C) as M.
  destruct x as [|a x]; [discriminate P|].
  change (drop 1 (String a x)) with x in C.
  cbn [append finditer_from] in *. rewrite M.
  destruct (match_at CHANNEL_PATTERN (String a x)) as [[r c]|]; cbn [lift].
  - rewrite length_append.
    replace (length (String a (x ++ rest)) - (length r + length rest) - 1)
      with (length (String a x) - length r - 1)
      by (cbn [length]; rewrite length_append; lia).
    destruct (scan_clear x (length (String a x) - length r - 1) C) as [S1 S2];
      [cbn [length]; lia|].
    rewrite S1, S2. split; [reflexivity | cbn [List.length]; lia].
  - destruct (scan_clear x 0 C) as [S1 S2]; [lia|].
    rewrite S1, S2. split; [reflexivity | cbn [List.length]; lia].
Qed.

End FollowedFacts.

(** ** Parsing a text and parsing its blocks *)

Section PieceFacts.
Context {rt : Runtime}.
Variable self : LMStudioBridge.
Import Re HarmonyParser XMLFormatter Spec PyStrFacts MarkerFacts Bridge More.

Lemma pieces_marked (t : list string) :
  pieces_ok t ->
  String.concat "" t = "" \/ prefix marker (String.concat "" t) = true.
Proof.
  destruct t as [|x t]; [now left|]. intros (P & _ & _). right.
  rewrite concat_empty_sep_cons. now apply prefix_append.
Qed.

(** The pieces of a text begin with a channel marker and hold no other
    one, and no marker begins in the text before them. *)
Lemma chop_ok (s : string) :
  clear_of_marker (fst (chop s)) (String.concat "" (snd (chop s))) = true
  /\ pieces_ok (snd (chop s)).
Proof.
  induction s as [|c s IH]; [now split|].
  pose proof (chop_text s) as T.
  cbn [chop]. destruct (chop s) as [h t]. cbn [fst snd] in *.
  destruct IH as [C K].
  destruct (prefix marker (String c s)) eqn:P; cbn [fst snd].
  - split; [reflexivity|]. cbn [pieces_ok]. split; [|now split].
    rewrite T in P. change (String c (h ++ ?r)) with (String c h ++ r) in P.
    destruct (Nat.le_gt_cases (length marker) (length (String c h))) as [L|L].
    + now rewrite prefix_append_long in P.
    + exfalso. destruct (pieces_marked t K) as [E|E].
      * rewrite E, append_nil_r in P.
        rewrite (prefix_split _ _ P), length_append in L. lia.
      * pose proof (marker_no_overlap _ (length (String c h)) P) as N.
        rewrite drop_length_append, E in N.
        assert (N' : true = false); [|discriminate N'].
        apply N. change (length marker) with 11 in L. cbn [length] in *. lia.
  - split; [|exact K]. cbn [clear_of_marker].
    change (String c h ++ ?r) with (String c (h ++ r)).
    now rewrite <- T, P.
Qed.

Lemma segments_concat (t : list string) :
  pieces_ok t ->
  segments (String.concat "" t) = flat_map segments t
  /\ Forall (fun x => List.length (segments x) <= 1) t.
Proof.
  induction t as [|x t IH]; [now split|].
  intros (P & C & K). destruct (IH K) as [I1 I2].
  destruct (finditer_piece _ (pieces_marked t K) x P C) as [F1 F2].
  split; [|now constructor].
  rewrite concat_empty_sep_cons. cbn [flat_map]. rewrite <- I1.
  exact F1.
Qed.

Lemma segments_chop (s : string) :
  segments s = flat_map segments (snd (chop s)).
Proof.
  destruct (chop_ok s) as [C K]. destruct (segments_concat _ K) as [<- _].
  rewrite (chop_text s) at 1. unfold segments, finditer.
  now destruct (scan_clear _ _ 0 C (Nat.le_0_l _)) as [-> _].
Qed.

Lemma flat_map_bounded {A B : Type} (f : A -> list B) (l : list A) :
  Forall (fun x => List.length (f x) <= 1) l ->
  List.length (flat_map f l) <= List.length l.
Proof.
  induction 1 as [|x l H _ IH]; [reflexivity|].
  cbn [flat_map]. rewrite length_app. cbn [List.length]. lia.
Qed.

Lemma segments_bounded (s : string) :
  List.length (segments s) <= List.length (occurrences marker s).
Proof.
  rewrite segments_chop, occurrences_pieces, starts_length.
  apply flat_map_bounded. apply segments_concat. apply chop_ok.
Qed.

Lemma removelast_last_app {A : Type} (l : list A) (d : A) :
  l <> [] -> (removelast l ++ [last l d])%list = l.
Proof. intros N. symmetry. now apply app_removelast_last. Qed.

Lemma extract_segments (b : string) (base_chunk : dict) :
  segments b
  = (flat_map segments (blocks_between (occurrences marker b) b)
     ++ segments (snd (_extract_ready_blocks self b base_chunk)))%list.
Proof.
  rewrite extract_pieces, occurrences_pieces.
  pose proof (chop_text b) as T. pose proof (segments_chop b) as S.
  destruct (chop b) as [h t]; cbn [fst snd] in *.
  destruct (List.length t <=? 1)%nat eqn:L; cbn [snd].
  - rewrite T at 2. rewrite pieces_between.
    destruct t as [|x [|y t]]; [reflexivity | reflexivity | discriminate L].
  - assert (N : t <> []) by (intros ->; discriminate L).
    rewrite T at 2. rewrite pieces_between, S.
    rewrite <- (removelast_last_app t "" N) at 1.
    rewrite flat_map_app. cbn [flat_map]. now rewrite app_nil_r.
Qed.

Lemma flat_map_flat_map {A B C : Type} (f : B -> list C) (g : A -> list B)
    (l : list A) :
  flat_map f (flat_map g l) = flat_map (fun x => flat_map f (g x)) l.
Proof.
  induction l as [|x l IH]; [reflexivity|].
  cbn [flat_map]. now rewrite flat_map_app, IH.
Qed.

Lemma concat_empty_app (a b : list string) :
  String.concat "" (a ++ b) = String.concat "" a ++ String.concat "" b.
Proof.
  induction a as [|x a IH]; [reflexivity|].
  cbn [app]. now rewrite !concat_empty_sep_cons, IH, append_assoc.
Qed.

Lemma concat_flat_map {A : Type} (f : A -> string) (g : string -> list A)
    (l : list string) :
  String.concat "" (map f (flat_map g l))
  = String.concat "" (map (fun x => String.concat "" (map f (g x))) l).
Proof.
  induction l as [|x l IH]; [reflexivity|].
  cbn [flat_map map].
  now rewrite map_app, concat_empty_app, concat_empty_sep_cons, IH.
Qed.

Lemma Forall_removelast {A : Type} (P : A -> Prop) (l : list A) :
  Forall P l -> Forall P (removelast l).
Proof.
  induction 1 as [|x l H F IH]; [constructor|].
  destruct l as [|y l]; [constructor|]. cbn [removelast] in *.
  now constructor.
Qed.

Lemma tool_part_bounded (m : captures) : List.length (tool_part m) <= 1.
Proof.
  unfold tool_part.
  destruct (is_final m); [simpl; lia|].
  destruct (String.eqb _ _); [simpl; lia|].
  destruct (is_invocation m); simpl; lia.
Qed.

(** X19. Cutting the buffer into blocks loses no segment and makes none:
    the parser finds in the whole buffer the segments it finds in the
    complete blocks that the extraction step processes, block after block,
    followed by those of the text that the step keeps. So the tool calls,
    the analysis notes, the commentary notes and the final text of the
    whole buffer are those of the blocks and the kept text put together
    in order. *)
Theorem whole_parse_agrees_with_blocks (b : string) (base_chunk : dict) :
  let blocks := blocks_between (occurrences marker b) b in
  let kept := snd (_extract_ready_blocks self b base_chunk) in
  segments b = (flat_map segments blocks ++ segments kept)%list
  /\ tool_calls (parse_block b)
     = (flat_map (fun x => tool_calls (parse_block x)) blocks
        ++ tool_calls (parse_block kept))%list
  /\ analysis (parse_block b)
     = (flat_map (fun x => analysis (parse_block x)) blocks
        ++ analysis (parse_block kept))%list
  /\ commentary (parse_block b)
     = (flat_map (fun x => commentary (parse_block x)) blocks
        ++ commentary (parse_block kept))%list
  /\ final_message (parse_block b)
     = String.concat "" (map (fun x => final_message (parse_block x)) blocks)
       ++ final_message (parse_block kept).
Proof.
  intros blocks kept.
  pose proof (extract_segments b base_chunk) as S.
  fold blocks kept in S.
  split; [exact S|].
  rewrite !parse_block_parts.
  cbn [tool_calls analysis commentary final_message].
  rewrite S, !flat_map_app, map_app, concat_empty_app.
  rewrite !flat_map_flat_map, concat_flat_map.
  split; [|split; [|split]]; f_equal.
  - apply flat_map_ext. intros x. now rewrite parse_block_parts.
  - apply flat_map_ext. intros x. now rewrite parse_block_parts.
  - apply flat_map_ext. intros x. now rewrite parse_block_parts.
  - f_equal. apply map_ext. intros x. now rewrite parse_block_parts.
Qed.

(** X20. A text holds at most as many segments as channel markers. So
    every complete block that the extraction step processes holds at most
    one segment and yields at most one tool call, and the text that the
    step keeps holds at most one segment. *)
Theorem blocks_hold_one_segment (b : string) (base_chunk : dict) :
  List.length (segments b) <= List.length (occurrences marker b)
  /\ Forall (fun x => List.length (segments x) <= 1
                      /\ List.length (tool_calls (parse_block x)) <= 1)
       (blocks_between (occurrences marker b) b)
  /\ List.length (segments (snd (_extract_ready_blocks self b base_chunk)))
     <= 1.
Proof.
  split; [apply segments_bounded|]. split.
  - rewrite occurrences_pieces.
    pose proof (chop_text b) as T. destruct (chop_ok b) as [_ K].
    destruct (chop b) as [h t]; cbn [fst snd] in *.
    rewrite T at 1. rewrite pieces_between.
    apply Forall_removelast.
    destruct (segments_concat t K) as [_ F].
    apply Forall_impl with (2 := F). intros x L. split; [exact L|].
    rewrite parse_block_parts. cbn [tool_calls].
    destruct (segments x) as [|m [|m' ms]].
    + simpl. lia.
    + cbn [flat_map]. rewrite app_nil_r. apply tool_part_bounded.
    + simpl in L. lia.
  - etransitivity; [apply segments_bounded|].
    apply kept_text_occurrences.
Qed.

End PieceFacts.

(** ** A buffered stream as a function of its text *)

Section WholeStreamFacts.
Context {rt : Runtime}.
Variable self : LMStudioBridge.
Import Re HarmonyParser XMLFormatter Spec PyStrFacts MarkerFacts Bridge More.



End WholeStreamFacts.

(** ** Further runs on sample inputs *)

Section WholeRuns.
Import RefRuntime HarmonyParser XMLFormatter Spec Bridge Samples More.


(** The same stream written out: the first block is translated when the
    marker of the second is complete, the second at the end marker. *)
Example split_stream_written_out :
  map wire
    (fst (_stream_transform xml_bridge
            (body [fragment "<|channel|>final<|message|>Hel";
                   fragment "lo<|chan"; fragment "nel|>final<|message|>bye";
                   done_line])))
  = map wire
      (fst (_stream_transform xml_bridge
              (body [fragment "<|channel|>final<|message|>Hello";
                     fragment "<|channel|>final<|message|>bye";
                     done_line]))).
Proof. vm_compute. reflexivity. Qed.

End WholeRuns.

(** ** A whole body with Harmony text *)

Section AnswerFacts.
Context {rt : Runtime}.
Variable self : LMStudioBridge.
Import HarmonyParser XMLFormatter Spec PyStrFacts Bridge More.








End AnswerFacts.

Section AnswerRuns.
Import RefRuntime HarmonyParser XMLFormatter Spec Bridge Samples More.


(** The answer to such a body, written out. *)
Example translated_bodies :
  _nonstream_transform json_bridge
    (json_body (completion (JStr "<|channel|>final<|message|>Hello")))
  = JsonResponse 200
      (JDict
         [("choices",
           JList
             [JDict
                [("index", JInt 0);
                 ("message",
                  JDict [("role", JStr "assistant");
                         ("content", JStr "Hello")]);
                 ("finish_reason", JStr "stop")]])]).
Proof. vm_compute. reflexivity. Qed.

End AnswerRuns.

(** ** Lines that end the stream *)

Section BrokenFacts.
Context {rt : Runtime}.
Variable self : LMStudioBridge.
Import HarmonyParser XMLFormatter Spec PyStrFacts Bridge More.

(** X23. A data line whose payload decodes to something other than an
    object, or to a chunk whose delta content is a number other than zero
    or [true], ends the stream at once, whatever the state of the
    connection: nothing is written for that line, the lines after it are
    not read, the pending text is not flushed and no end marker is
    written. *)
Theorem broken_line_ends_stream (st : HarmonyStreamState) (raw_line : string)
    (rest : list string) (fails : bool) :
  broken_line raw_line ->
  exists e,
    (e = AttributeError \/ e = TypeError)
    /\ stream_loop self st (raw_line :: rest) fails = ([], Errored e).
Proof.
  intros (H1 & H2 & H3 & [(v & L & D) | (chunk & content & L & D & T & S)]).
  - exists AttributeError. split; [now left|].
    cbn [stream_loop]. unfold process_line.
    apply String.eqb_neq in H1, H2. rewrite H1, H2, H3, L. cbn [negb].
    now destruct v.
  - exists TypeError. split; [now right|].
    cbn [stream_loop].
    rewrite (process_data_line self st raw_line chunk
               (conj H1 (conj H2 (conj H3 L)))).
    unfold on_chunk. rewrite D, T.
    now destruct content.
Qed.

End BrokenFacts.

Section BrokenRuns.
Import RefRuntime HarmonyParser XMLFormatter Spec Bridge Samples More.

Lemma broken_line_ends_stream_witness :
  exists e,
    (e = AttributeError \/ e = TypeError)
    /\ stream_loop xml_bridge buffering ["data: null"; done_line] false
       = ([], Errored e).
Proof.
  apply (broken_line_ends_stream xml_bridge buffering "data: null"
           [done_line] false).
  split; [vm_compute; discriminate|].
  split; [vm_compute; discriminate|].
  split; [reflexivity|].
  left. exists JNull. split; vm_compute; reflexivity.
Defined.

End BrokenRuns.
